(** * The document node model of substance: [DocumentNode]

    A shallow embedding of [DocumentNode] (the base node type of the
    document model, found in the second part of
    [src/packages/superscript/SuperscriptCommand.js]) together with the
    properties its specification states about it.

    JavaScript objects that are shared and mutated (the [Document] with its
    event proxies) live in a heap addressed by references; a node is a record
    that is threaded through the methods that assign to [this]. A method that
    may throw returns a [Completion]; the unbounded [while] loop of [getRoot]
    is run with fuel and also given as a big-step relation. *)

From Stdlib Require Import ZArith Ascii String.
From stdpp Require Import base option list relations strings gmap.

Open Scope string_scope.

(** ** JavaScript values and completions *)

(** The values the volatile fields of a node and the arguments of an emitted
    event take. *)
Inductive JsVal :=
| JsUndefined
| JsNull
| JsBool (b : bool)
| JsString (s : string).

#[global] Instance JsVal_eq_dec : EqDecision JsVal.
Proof. solve_decision. Defined.

(** [a !== b] on the values above (none of them is [NaN], so strict
    inequality is plain difference). *)
Definition strict_neq (a b : JsVal) : bool := negb (bool_decide (a = b)).

(** A call either returns or throws; an exception is identified by the
    [name] of its error class. *)
Inductive Completion (A : Type) :=
| Normal (a : A)
| Throw (name : string).
Arguments Normal {A} a.
Arguments Throw {A} name.

(** Reading a property of [undefined] is the only way the code below throws. *)
Definition TypeError : string := "TypeError".

#[global] Instance Completion_ret : MRet Completion := fun A a => Normal a.

#[global] Instance Completion_bind : MBind Completion := fun A B k c =>
  match c with
  | Normal a => k a
  | Throw e => Throw e
  end.

(** ** The regular expression of [_matchPropertyEvent] *)

(** The character class [[a-zA-Z_0-9]]. *)
Definition is_word_char (c : ascii) : bool :=
  let n := nat_of_ascii c in
  (Nat.leb 97 n && Nat.leb n 122)
  || (Nat.leb 65 n && Nat.leb n 90)
  || Nat.eqb n 95
  || (Nat.leb 48 n && Nat.leb n 57).

(** The longest prefix of class characters, and what follows it: what the
    greedy [[a-zA-Z_0-9]+] consumes first. *)
Fixpoint word_run (s : string) : string * string :=
  match s with
  | EmptyString => (EmptyString, EmptyString)
  | String c rest =>
      if is_word_char c
      then let '(w, r) := word_run rest in (String c w, r)
      else (EmptyString, s)
  end.

(** A match that starts at the first character of [s]. The run is followed
    by [':'], which is not in the class, so giving back characters of the
    greedy run can never help: only the whole run can be the group. *)
Definition match_here (s : string) : option string :=
  let '(w, r) := word_run s in
  if negb (String.eqb w "") && String.prefix ":changed" r
  then Some w
  else None.

(** [RegExp.prototype.exec] without the sticky flag: the start positions are
    tried from left to right. *)
Fixpoint exec_from (s : string) : option string :=
  match match_here s with
  | Some w => Some w
  | None =>
      match s with
      | EmptyString => None
      | String _ rest => exec_from rest
      end
  end.

(** [/([a-zA-Z_0-9]+):changed/.exec(eventName)]: [None] is [null], [Some p]
    is a match array whose group [match[1]] is [p]. *)
Definition _matchPropertyEvent (eventName : string) : option string :=
  exec_from eventName.

(** ** Event bindings *)

(** Handlers and contexts are objects compared by identity. *)
Definition Handler := nat.
Definition Context := nat.

Record Binding := {
  b_event : string;
  b_method : Handler;
  b_context : Context
}.

(** A call [this.emit(event, arg, ...)]. *)
Record Emission := {
  em_event : string;
  em_args : list JsVal
}.

(** Modelled from the spec: the event emitter that [DataNode] hands down to
    [DocumentNode] as [_super.on], [_super.off] and [emit] is not part of the
    sources. The local subscriptions of a node are kept in subscription order;
    [off(context, eventName, handler)] removes the subscriptions owned by
    [context], all of them when no event name is given, and an absent handler
    stands for any handler. *)
Definition EventEmitter_on (event : string) (method : Handler) (context : Context)
    (bs : list Binding) : list Binding :=
  (bs ++ [{| b_event := event; b_method := method; b_context := context |}])%list.

(** An argument that was left out ([None]) stands for any value. *)
Definition given {A} `{EqDecision A} (arg : option A) (x : A) : bool :=
  match arg with
  | None => true
  | Some a => bool_decide (x = a)
  end.

Definition binding_selected (context : Context) (event : option string)
    (method : option Handler) (b : Binding) : bool :=
  bool_decide (b_context b = context)
  && given event (b_event b)
  && given method (b_method b).

(** Modelled from the spec: [off] of the same emitter, which is not part of
    the sources. It drops the subscriptions owned by [context], narrowed to an
    event name and a handler when these are given. *)
Definition EventEmitter_off (context : Context) (event : option string)
    (method : option Handler) (bs : list Binding) : list Binding :=
  List.filter (fun b => negb (binding_selected context event method b)) bs.

(** ** The path event proxy *)

Record PathBinding := {
  pb_path : list string;
  pb_method : Handler;
  pb_context : Context
}.

Definition PathEventProxy := list PathBinding.

(** Modelled from the spec: the path proxy of a Document is not part of the
    sources. It keeps the subscribers of a path [[nodeId, propertyName]];
    [off(context)] removes every subscription of [context], [off(context,
    path, handler)] the ones at that path (with that handler, when given). *)
Definition PathEventProxy_on (path : list string) (method : Handler)
    (context : Context) (px : PathEventProxy) : PathEventProxy :=
  (px ++ [{| pb_path := path; pb_method := method; pb_context := context |}])%list.

Definition path_binding_selected (context : Context) (path : option (list string))
    (method : option Handler) (b : PathBinding) : bool :=
  bool_decide (pb_context b = context)
  && given path (pb_path b)
  && given method (pb_method b).

(** Modelled from the spec: [off] of the path proxy, which is not part of the
    sources. It drops the subscriptions owned by [context], narrowed to a path
    and a handler when these are given. *)
Definition PathEventProxy_off (context : Context) (path : option (list string))
    (method : option Handler) (px : PathEventProxy) : PathEventProxy :=
  List.filter (fun b => negb (path_binding_selected context path method b)) px.

(** ** Node types, nodes, documents *)

Record PropertyDef := {
  prop_type : string;
  prop_default : option JsVal
}.

(** What hangs on the constructor of a node type: the declared schema and the
    five static category flags. *)
Record NodeClass := {
  schema : gmap string PropertyDef;
  static_isBlock : bool;
  static_isText : bool;
  static_isPropertyAnnotation : bool;
  static_isInline : bool;
  static_isContainerAnnotation : bool
}.

(** [DocumentNode] itself: every flag is declared [false]; its schema is the
    one it inherits from [DataNode]. *)
Definition DocumentNode_class (inherited : gmap string PropertyDef) : NodeClass :=
  {| schema := inherited;
     static_isBlock := false;
     static_isText := false;
     static_isPropertyAnnotation := false;
     static_isInline := false;
     static_isContainerAnnotation := false |}.

(** A reference to a Document object. *)
Definition DocRef := nat.

Record DocumentNode := {
  constructor : NodeClass;
  id : string;
  parent : option string;          (* [None] is [undefined] *)
  document : option DocRef;        (* [None]: a detached node *)
  highlighted : JsVal;
  highlightedScope : JsVal;
  listeners : list Binding         (* the local subscriptions *)
}.

(** Modelled from the spec: the Document is not part of the sources. It owns
    the live nodes keyed by id, [get(id)] yields the node or [undefined], and
    [getEventProxy(name)] yields the proxy of that name. *)
Record Document := {
  nodes : gmap string DocumentNode;
  eventProxies : string -> PathEventProxy
}.

(** Modelled from the spec: [get(id)] of the Document, which is not part of
    the sources; looking up [undefined] finds nothing. *)
Definition Document_get (d : Document) (key : option string) : option DocumentNode :=
  key ≫= fun k => nodes d !! k.

(** Modelled from the spec: [getEventProxy(name)] of the Document, which is
    not part of the sources; it always yields a proxy. *)
Definition getEventProxy (name : string) (d : Document) : PathEventProxy :=
  eventProxies d name.

(** Every reference denotes a Document object. *)
Definition Heap := DocRef -> Document.

(** The proxy [name] of a Document, mutated in place by [f]. *)
Definition update_proxy (name : string) (f : PathEventProxy -> PathEventProxy)
    (d : Document) : Document :=
  {| nodes := nodes d;
     eventProxies := fun k =>
       if String.eqb k name then f (eventProxies d k) else eventProxies d k |}.

Definition heap_update (r : DocRef) (f : Document -> Document) (h : Heap) : Heap :=
  fun r' => if Nat.eqb r' r then f (h r') else h r'.

(** [doc.getEventProxy(name).m(...)] where [doc] may be [undefined]. *)
Definition call_proxy (doc : option DocRef) (name : string)
    (m : PathEventProxy -> PathEventProxy) (h : Heap) : Completion Heap :=
  match doc with
  | None => Throw TypeError
  | Some r => Normal (heap_update r (update_proxy name m) h)
  end.

(** [DocumentNode(doc, props)]: the properties are set by [DataNode], then
    the document is stored, present or not. *)
Definition new_DocumentNode (cls : NodeClass) (doc : option DocRef)
    (props_id : string) (props_parent : option string) : DocumentNode :=
  {| constructor := cls; id := props_id; parent := props_parent;
     document := doc; highlighted := JsUndefined;
     highlightedScope := JsUndefined; listeners := [] |}.

(** ** The methods of [DocumentNode] *)

(** Assignments to the fields a method writes. *)
Definition set_highlight (flag scope : JsVal) (n : DocumentNode) : DocumentNode :=
  {| constructor := constructor n; id := id n; parent := parent n;
     document := document n; highlighted := flag;
     highlightedScope := scope; listeners := listeners n |}.

Definition set_listeners (bs : list Binding) (n : DocumentNode) : DocumentNode :=
  {| constructor := constructor n; id := id n; parent := parent n;
     document := document n; highlighted := highlighted n;
     highlightedScope := highlightedScope n; listeners := bs |}.

Definition getDocument (this : DocumentNode) : option DocRef := document this.

(** [Boolean(v)] for a value that is [undefined] or a string. *)
Definition Boolean (v : option string) : bool :=
  match v with
  | None => false
  | Some s => negb (String.eqb s "")
  end.

Definition hasParent (this : DocumentNode) : bool := Boolean (parent this).

(** [this.document.get(this.parent)]: the result of the lookup, [None] being
    [undefined]; on a detached node reading [get] of [undefined] throws. *)
Definition getParent (h : Heap) (this : DocumentNode)
    : Completion (option DocumentNode) :=
  match document this with
  | None => Throw TypeError
  | Some r => Normal (Document_get (h r) (parent this))
  end.

Definition hasChildren (this : DocumentNode) : bool := false.

Definition getChildIndex {A} (this : DocumentNode) (child : A) : Z := (-1)%Z.

(** [None] is [null]. *)
Definition getChildAt {A} (this : DocumentNode) (idx : A) : option DocumentNode := None.

Definition getChildCount (this : DocumentNode) : Z := 0%Z.

(** The loop of [getRoot], run for at most [fuel] tests of its condition;
    [None] means that the loop is still running when the fuel is used up.
    When [getParent] hands back [undefined], the next test of the condition
    calls [hasParent] on it and throws. *)
Fixpoint getRoot (fuel : nat) (h : Heap) (node : DocumentNode)
    : option (Completion DocumentNode) :=
  match fuel with
  | O => None
  | S fuel' =>
      if hasParent node then
        match getParent h node with
        | Normal (Some up) => getRoot fuel' h up
        | Normal None => Some (Throw TypeError)
        | Throw e => Some (Throw e)
        end
      else Some (Normal node)
  end.

(** The same loop as a big-step relation: [getRoot_runs h node c] when the
    call on [node] completes with [c]. *)
Inductive getRoot_runs (h : Heap) : DocumentNode -> Completion DocumentNode -> Prop :=
| runs_exit node :
    hasParent node = false ->
    getRoot_runs h node (Normal node)
| runs_iter node up c :
    hasParent node = true ->
    getParent h node = Normal (Some up) ->
    getRoot_runs h up c ->
    getRoot_runs h node c
| runs_undefined node :
    hasParent node = true ->
    getParent h node = Normal None ->
    getRoot_runs h node (Throw TypeError)
| runs_throw node e :
    hasParent node = true ->
    getParent h node = Throw e ->
    getRoot_runs h node (Throw e).

(** One step up the parent edge, as the loop body takes it. *)
Definition parent_step (h : Heap) (node up : DocumentNode) : Prop :=
  hasParent node = true /\ getParent h node = Normal (Some up).

Definition setHighlighted (flag scope : JsVal) (this : DocumentNode)
    : DocumentNode * list Emission :=
  if strict_neq (highlighted this) flag
  then (set_highlight flag scope this,
        [{| em_event := "highlighted"; em_args := [flag] |}])
  else (this, []).

(** The type declares the property: its schema has an entry of its own
    under that name. *)
Definition declares (cls : NodeClass) (propertyName : string) : bool :=
  bool_decide (is_Some (schema cls !! propertyName)).

(** The names every ordinary object inherits from [Object.prototype]; what
    is read under any of them is a function or an object, hence truthy. *)
Definition Object_prototype : list string :=
  ["constructor"; "hasOwnProperty"; "isPrototypeOf"; "propertyIsEnumerable";
   "toLocaleString"; "toString"; "valueOf"; "__defineGetter__";
   "__defineSetter__"; "__lookupGetter__"; "__lookupSetter__"; "__proto__"].

Definition inherited (name : string) : bool :=
  existsb (String.eqb name) Object_prototype.

(** [this.constructor.schema[propertyName]] as a condition. The schema is an
    ordinary object and the read is a plain one, with no test for an own
    property: it yields the entry of a declared property (an object, hence
    truthy), else what [Object.prototype] holds under the name, else
    [undefined]. *)
Definition schema_truthy (cls : NodeClass) (propertyName : string) : bool :=
  declares cls propertyName || inherited propertyName.

(** [on] and [off] change the path proxy of the Document and the local
    subscriptions of [this], and return both; when they throw, it is at the
    first use of the document, before anything has been changed. *)
Definition on (eventName : string) (handler : Handler) (ctx : Context)
    (h : Heap) (this : DocumentNode) : Completion (Heap * DocumentNode) :=
  h' ← match _matchPropertyEvent eventName with
       | Some propertyName =>
           if schema_truthy (constructor this) propertyName
           then call_proxy (getDocument this) "path"
                  (PathEventProxy_on [id this; propertyName] handler ctx) h
           else Normal h
       | None => Normal h
       end;
  Normal (h', set_listeners (EventEmitter_on eventName handler ctx (listeners this)) this).

(** [eventName] and [handler] may be left out ([None]); the test
    [!eventName] also holds for the empty string. The expression is only
    consulted when an event name is given, and a match is not checked against
    the schema. *)
Definition off (ctx : Context) (eventName : option string) (handler : option Handler)
    (h : Heap) (this : DocumentNode) : Completion (Heap * DocumentNode) :=
  let doc := getDocument this in
  '(h1, matched) ←
     (if negb (Boolean eventName)
      then h' ← call_proxy doc "path" (PathEventProxy_off ctx None None) h;
           Normal (h', None)
      else Normal (h, eventName ≫= _matchPropertyEvent));
  h2 ← match matched with
       | Some propertyName =>
           call_proxy doc "path"
             (PathEventProxy_off ctx (Some [id this; propertyName]) handler) h1
       | None => Normal h1
       end;
  Normal (h2, set_listeners (EventEmitter_off ctx eventName handler (listeners this)) this).

(** [connect] subscribes each entry of [handlers], in the order [each] visits
    them; [disconnect] is [off(ctx)]. The deprecation warnings go to the
    console only. *)
Fixpoint connect (ctx : Context) (handlers : list (string * Handler))
    (h : Heap) (this : DocumentNode) : Completion (Heap * DocumentNode) :=
  match handlers with
  | [] => Normal (h, this)
  | (name, func) :: more =>
      '(h', this') ← on name func ctx h this;
      connect ctx more h' this'
  end.

Definition disconnect (ctx : Context) (h : Heap) (this : DocumentNode)
    : Completion (Heap * DocumentNode) :=
  off ctx None None h this.

Definition _onPropertyChange (propertyName : string) (args : list JsVal)
    (this : DocumentNode) : DocumentNode * list Emission :=
  (this, [{| em_event := propertyName ++ ":changed"; em_args := args |}]).

(** Node categories: each reads the static flag of the constructor. *)
Definition isBlock (this : DocumentNode) : bool :=
  static_isBlock (constructor this).

Definition isText (this : DocumentNode) : bool :=
  static_isText (constructor this).

Definition isPropertyAnnotation (this : DocumentNode) : bool :=
  static_isPropertyAnnotation (constructor this).

Definition isInline (this : DocumentNode) : bool :=
  static_isInline (constructor this).

Definition isContainerAnnotation (this : DocumentNode) : bool :=
  static_isContainerAnnotation (constructor this).

(** The five answers of a node, in the order above. *)
Definition categories (this : DocumentNode) : list bool :=
  [isBlock this; isText this; isPropertyAnnotation this; isInline this;
   isContainerAnnotation this].

(** ** Auxiliary notions *)

(** Strings made of class characters only. *)
Fixpoint all_word (s : string) : bool :=
  match s with
  | EmptyString => true
  | String c rest => is_word_char c && all_word rest
  end.

(** A property name as the expression can capture it. *)
Definition word (p : string) : Prop := p <> "" /\ all_word p = true.

(** The path proxy of the Document at [r]. *)
Definition path_proxy (h : Heap) (r : DocRef) : PathEventProxy :=
  getEventProxy "path" (h r).

(** The event [setHighlighted] emits for a flag. *)
Definition highlighted_event (flag : JsVal) : Emission :=
  {| em_event := "highlighted"; em_args := [flag] |}.

(** The node after the local subscription of [on], and after the local
    deregistration of [off]. *)
Definition subscribed (this : DocumentNode) (eventName : string)
    (handler : Handler) (ctx : Context) : DocumentNode :=
  set_listeners (EventEmitter_on eventName handler ctx (listeners this)) this.

Definition unsubscribed (this : DocumentNode) (ctx : Context)
    (eventName : option string) (handler : option Handler) : DocumentNode :=
  set_listeners (EventEmitter_off ctx eventName handler (listeners this)) this.

(** ** Sample documents *)

(** A text block type with one declared property, [content]. *)
Definition Paragraph : NodeClass :=
  {| schema := {[ "content" := {| prop_type := "text"; prop_default := None |} ]};
     static_isBlock := true;
     static_isText := true;
     static_isPropertyAnnotation := false;
     static_isInline := false;
     static_isContainerAnnotation := false |}.

Definition doc_of (ns : list DocumentNode) : Document :=
  {| nodes := list_to_map (List.map (fun n => (id n, n)) ns);
     eventProxies := fun _ => [] |}.

(** A three-level chain: [A]'s parent is [B], [B]'s parent is [C], the root. *)
Definition chain_A := new_DocumentNode Paragraph (Some 0) "A" (Some "B").
Definition chain_B := new_DocumentNode Paragraph (Some 0) "B" (Some "C").
Definition chain_C := new_DocumentNode Paragraph (Some 0) "C" None.
Definition chain_heap : Heap := fun _ => doc_of [chain_A; chain_B; chain_C].

(** Two nodes that name each other as parent. *)
Definition cyc_A := new_DocumentNode Paragraph (Some 0) "A" (Some "B").
Definition cyc_B := new_DocumentNode Paragraph (Some 0) "B" (Some "A").
Definition cyc_heap : Heap := fun _ => doc_of [cyc_A; cyc_B].

(** A node whose parent id is not in its Document. *)
Definition orphan := new_DocumentNode Paragraph (Some 0) "n1" (Some "gone").
Definition orphan_heap : Heap := fun _ => doc_of [orphan].

(** A paragraph of a Document, and the same paragraph detached. *)
Definition para := new_DocumentNode Paragraph (Some 0) "n1" None.
Definition para_heap : Heap := fun _ => doc_of [para].
Definition detached := new_DocumentNode Paragraph None "n1" None.

(** The same paragraph with subscriptions of two contexts, [1] and [2], on
    the path proxy and on the node. *)
Definition busy_para : DocumentNode :=
  set_listeners
    [{| b_event := "content:changed"; b_method := 7; b_context := 1 |};
     {| b_event := "highlighted"; b_method := 8; b_context := 1 |};
     {| b_event := "content:changed"; b_method := 9; b_context := 2 |}]
    para.

Definition busy_heap : Heap := fun _ =>
  update_proxy "path"
    (fun _ => [{| pb_path := ["n1"; "content"]; pb_method := 7; pb_context := 1 |};
               {| pb_path := ["n1"; "content"]; pb_method := 9; pb_context := 2 |}])
    (doc_of [busy_para]).

(** ** Notions for sequences of calls *)

(** Calls [setHighlighted(flag, scope)] made one after the other on a node,
    with the events they emit, in order. *)
Fixpoint setHighlighted_each (calls : list (JsVal * JsVal)) (this : DocumentNode)
    : DocumentNode * list Emission :=
  match calls with
  | [] => (this, [])
  | (flag, scope) :: more =>
      let '(n1, e1) := setHighlighted flag scope this in
      let '(n2, e2) := setHighlighted_each more n1 in
      (n2, (e1 ++ e2)%list)
  end.

(** Every value differs from the one before it, [prev] standing before the
    first. *)
Fixpoint alternating (prev : JsVal) (vs : list JsVal) : Prop :=
  match vs with
  | [] => True
  | v :: more => prev <> v /\ alternating v more
  end.

(** The event name leads [on] to the path proxy: the expression finds a
    property name in it, and the schema read under that name is truthy. *)
Definition routed (cls : NodeClass) (eventName : string) : bool :=
  match _matchPropertyEvent eventName with
  | Some propertyName => schema_truthy cls propertyName
  | None => false
  end.

(** The local subscriptions [connect] makes for [handlers]. *)
Definition bindings_of (ctx : Context) (handlers : list (string * Handler))
    : list Binding :=
  List.map (fun '(name, func) =>
              {| b_event := name; b_method := func; b_context := ctx |}) handlers.

(** What a call that returns leaves alone. *)
Definition frame (h h' : Heap) (this this' : DocumentNode) : Prop :=
  (forall r, nodes (h' r) = nodes (h r)) /\
  id this' = id this /\ parent this' = parent this /\
  document this' = document this /\
  (forall r name, Some r <> document this \/ name <> "path" ->
     getEventProxy name (h' r) = getEventProxy name (h r)).

(** A detached node that names a parent, and a Document whose node with the
    empty id is named as parent by another. *)
Definition stray := new_DocumentNode Paragraph None "n2" (Some "n1").
Definition blank_root := new_DocumentNode Paragraph (Some 0) "" None.
Definition blank_child := new_DocumentNode Paragraph (Some 0) "n1" (Some "").
Definition blank_heap : Heap := fun _ => doc_of [blank_root; blank_child].

(** A type that declares a property whose name is not a word of the
    expression; a detached node of it, and a node of it in a Document whose
    path proxy holds a subscription for that property. *)
Definition Hyphenated : NodeClass :=
  {| schema := {[ "my-prop" := {| prop_type := "string"; prop_default := None |} ]};
     static_isBlock := false;
     static_isText := false;
     static_isPropertyAnnotation := false;
     static_isInline := false;
     static_isContainerAnnotation := false |}.

Definition hyph_detached := new_DocumentNode Hyphenated None "n1" None.


(** * Properties *)

(** ** The regular expression *)

Section Regex.

Lemma prefix_split (p s : string) :
  String.prefix p s = true -> exists post, s = p ++ post.
Proof.
  revert s; induction p as [|c p IH]; intros s H.
  - by exists s.
  - destruct s as [|d s]; [done|]. simpl in H.
    destruct (Ascii.ascii_dec c d) as [->|]; [|done].
    destruct (IH _ H) as [post ->]. by exists post.
Qed.

Lemma prefix_app (p post : string) : String.prefix p (p ++ post) = true.
Proof.
  induction p as [|c p IH]; simpl; [by destruct post|].
  by destruct (Ascii.ascii_dec c c).
Qed.

Lemma word_run_split (s w r : string) :
  word_run s = (w, r) -> s = w ++ r /\ all_word w = true.
Proof.
  revert w r; induction s as [|c s IH]; intros w r H; simpl in H.
  - by inversion H.
  - destruct (is_word_char c) eqn:Hc.
    + destruct (word_run s) as [w' r'] eqn:Hrun. inversion H; subst.
      destruct (IH _ _ eq_refl) as [-> Hw]. simpl. rewrite Hc, Hw. by split.
    + by inversion H.
Qed.

(** A run stops in front of a character outside the class. *)
Lemma word_run_stop (w : string) (c : ascii) (r : string) :
  all_word w = true -> is_word_char c = false ->
  word_run (w ++ String c r) = (w, String c r).
Proof.
  intros Hw Hc. induction w as [|d w IH]; simpl in *.
  - by rewrite Hc.
  - apply andb_prop in Hw as [Hd Hw]. by rewrite Hd, (IH Hw).
Qed.

Lemma match_here_word (w post : string) :
  word w -> match_here (w ++ ":changed" ++ post) = Some w.
Proof.
  intros [Hne Hw]. unfold match_here.
  change (":changed" ++ post) with (String ":" ("changed" ++ post)).
  rewrite word_run_stop by done.
  destruct w as [|c w]; [done|]. simpl. by destruct post.
Qed.

Lemma match_here_sound (s w : string) :
  match_here s = Some w -> word w /\ exists post, s = w ++ ":changed" ++ post.
Proof.
  unfold match_here. destruct (word_run s) as [w' r] eqn:Hrun.
  destruct (word_run_split _ _ _ Hrun) as [-> Hw].
  destruct (negb (String.eqb w' "")) eqn:Hne; simpl; [|done].
  destruct (String.prefix ":changed" r) eqn:Hp; [|done].
  intros [= <-]. destruct (prefix_split _ _ Hp) as [post ->].
  split; [split; [|done]|by exists post].
  intros ->. done.
Qed.

Lemma exec_from_here (s w : string) :
  match_here s = Some w -> exec_from s = Some w.
Proof. intros H. destruct s; cbn [exec_from]; by rewrite H. Qed.

(** A name that is exactly a property name followed by [":changed"]. *)
Lemma match_exact (p : string) :
  word p -> _matchPropertyEvent (p ++ ":changed") = Some p.
Proof.
  intros Hp. apply exec_from_here, (match_here_word p "" Hp).
Qed.

(** Whatever is found is a word that stands in the name right in front of
    [":changed"]. *)
Lemma match_sound (s p : string) :
  _matchPropertyEvent s = Some p ->
  word p /\ exists pre post, s = pre ++ p ++ ":changed" ++ post.
Proof.
  unfold _matchPropertyEvent.
  induction s as [|c s IH]; cbn [exec_from];
    (destruct (match_here _) eqn:Hm;
     [intros [= ->]; destruct (match_here_sound _ _ Hm) as [Hw [post Hs]];
      split; [done|]; by exists "", post|]); [done|].
  intros H. destruct (IH H) as [Hw (pre & post & ->)].
  split; [done|]. by exists (String c pre), post.
Qed.

(** The search finds a match whenever the name contains one. *)
Lemma match_complete (pre w post : string) :
  word w -> is_Some (_matchPropertyEvent (pre ++ w ++ ":changed" ++ post)).
Proof.
  intros Hw. unfold _matchPropertyEvent.
  induction pre as [|c pre IH].
  - exists w. apply exec_from_here, (match_here_word w post Hw).
  - change (String c pre ++ w ++ ":changed" ++ post)
      with (String c (pre ++ w ++ ":changed" ++ post)).
    cbn [exec_from]. by destruct (match_here _); [eexists|].
Qed.

(** What is found is the leftmost such word: no other occurrence starts
    earlier in the name. *)
Lemma match_leftmost (s p : string) :
  _matchPropertyEvent s = Some p ->
  exists pre post,
    s = pre ++ p ++ ":changed" ++ post /\
    forall pre' w post',
      word w -> s = pre' ++ w ++ ":changed" ++ post' ->
      String.length pre <= String.length pre'.
Proof.
  unfold _matchPropertyEvent. revert p.
  induction s as [|c s IH]; intros p; cbn [exec_from].
  - destruct (match_here "") eqn:Hm; [|done]. intros [= ->].
    destruct (match_here_sound _ _ Hm) as [_ [post Hs]].
    exists "", post. split; [done|]. intros; simpl; lia.
  - destruct (match_here (String c s)) eqn:Hm.
    + intros [= ->]. destruct (match_here_sound _ _ Hm) as [_ [post Hs]].
      exists "", post. split; [done|]. intros; simpl; lia.
    + intros Hrest. destruct (IH _ Hrest) as (pre & post & -> & Hleft).
      exists (String c pre), post. split; [done|].
      intros pre' w post' Hw Hs. destruct pre' as [|d pre'].
      * change (String c (pre ++ p ++ ":changed" ++ post)
                = w ++ ":changed" ++ post') in Hs.
        rewrite Hs in Hm. by rewrite (match_here_word w post' Hw) in Hm.
      * change (String c (pre ++ p ++ ":changed" ++ post)
                = String d (pre' ++ w ++ ":changed" ++ post')) in Hs.
        injection Hs as _ Hs.
        pose proof (Hleft pre' w post' Hw Hs). simpl. lia.
Qed.

Lemma match_nonempty (s p : string) :
  _matchPropertyEvent s = Some p -> Boolean (Some s) = true.
Proof. by destruct s. Qed.

(** The search at work. *)
Example match_samples :
  _matchPropertyEvent "content:changed" = Some "content" /\
  _matchPropertyEvent "x-content:changed" = Some "content" /\
  _matchPropertyEvent "content:changed:late" = Some "content" /\
  _matchPropertyEvent "a:change b_9Z:changed" = Some "b_9Z" /\
  _matchPropertyEvent "highlighted" = None /\
  _matchPropertyEvent ":changed" = None /\
  _matchPropertyEvent "content:change" = None.
Proof. by repeat split. Qed.

End Regex.

(** ** The traversal of [getRoot] *)

Section GetRoot.

Context (h : Heap).

Lemma hasParent_unset (n : DocumentNode) : parent n = None -> hasParent n = false.
Proof. unfold hasParent. by intros ->. Qed.

(** More fuel never changes a result. *)
Lemma getRoot_more_fuel (fuel k : nat) (n : DocumentNode) (c : Completion DocumentNode) :
  getRoot fuel h n = Some c -> fuel <= k -> getRoot k h n = Some c.
Proof.
  revert k n. induction fuel as [|fuel IH]; intros k n Hrun Hle; [done|].
  destruct k as [|k]; [lia|]. simpl in *.
  destruct (hasParent n); [|done].
  destruct (getParent h n) as [[up|]|e]; [|done..].
  apply IH; [done|lia].
Qed.

(** The fuelled loop and the big-step relation agree. *)
Lemma getRoot_runs_fuel (n : DocumentNode) (c : Completion DocumentNode) :
  getRoot_runs h n c -> exists fuel, getRoot fuel h n = Some c.
Proof.
  induction 1 as [n Hp|n up c Hp Hget _ [fuel IH]|n Hp Hget|n e Hp Hget].
  - exists 1. simpl. by rewrite Hp.
  - exists (S fuel). simpl. by rewrite Hp, Hget.
  - exists 1. simpl. by rewrite Hp, Hget.
  - exists 1. simpl. by rewrite Hp, Hget.
Qed.

Lemma getRoot_fuel_runs (fuel : nat) (n : DocumentNode) (c : Completion DocumentNode) :
  getRoot fuel h n = Some c -> getRoot_runs h n c.
Proof.
  revert n. induction fuel as [|fuel IH]; intros n Hrun; [done|].
  simpl in Hrun. destruct (hasParent n) eqn:Hp.
  - destruct (getParent h n) as [[up|]|e] eqn:Hget.
    + eapply runs_iter; eauto.
    + injection Hrun as <-. by apply runs_undefined.
    + injection Hrun as <-. by apply runs_throw.
  - injection Hrun as <-. by apply runs_exit.
Qed.

(** A run that completes does so for every large enough fuel. *)
Lemma getRoot_runs_stable (n : DocumentNode) (c : Completion DocumentNode) :
  getRoot_runs h n c -> exists fuel, forall k, fuel <= k -> getRoot k h n = Some c.
Proof.
  intros [fuel Hrun]%getRoot_runs_fuel. exists fuel. intros k Hle.
  by apply getRoot_more_fuel with fuel.
Qed.

(** A run from further down the chain passes through every ancestor. *)
Lemma getRoot_runs_from_below (n m : DocumentNode) (c : Completion DocumentNode) :
  rtc (parent_step h) n m -> getRoot_runs h m c -> getRoot_runs h n c.
Proof.
  induction 1 as [|n up m [Hp Hget] _ IH]; [done|].
  intros Hrun. eapply runs_iter; eauto.
Qed.

(** The loop is deterministic. *)
Lemma getRoot_runs_det (n : DocumentNode) (c1 c2 : Completion DocumentNode) :
  getRoot_runs h n c1 -> getRoot_runs h n c2 -> c1 = c2.
Proof.
  intros [f1 H1]%getRoot_runs_fuel [f2 H2]%getRoot_runs_fuel.
  pose proof (getRoot_more_fuel _ (f1 + f2) _ _ H1 ltac:(lia)) as E1.
  pose proof (getRoot_more_fuel _ (f1 + f2) _ _ H2 ltac:(lia)) as E2.
  congruence.
Qed.

(** Where a completed run stopped: at a node without parent, or at one
    whose parent could not be fetched. *)
Lemma getRoot_runs_end (n : DocumentNode) (c : Completion DocumentNode) :
  getRoot_runs h n c ->
  exists last, rtc (parent_step h) n last /\
    (hasParent last = false \/ forall up, getParent h last <> Normal (Some up)).
Proof.
  induction 1 as [n Hp|n up c Hp Hget _ (last & Hreach & Hend)|n Hp Hget|n e Hp Hget].
  - exists n. split; [apply rtc_refl|by left].
  - exists last. split; [|done]. by eapply rtc_l; [split|].
  - exists n. split; [apply rtc_refl|right]. intros up. by rewrite Hget.
  - exists n. split; [apply rtc_refl|right]. intros up. by rewrite Hget.
Qed.

(** [getParent] throws nothing but the [TypeError] of a missing document. *)
Lemma getParent_throws (n : DocumentNode) (e : string) :
  getParent h n = Throw e -> e = TypeError /\ document n = None.
Proof. unfold getParent. destruct (document n); [done|]. by intros [= <-]. Qed.

Lemma getRoot_runs_throws (n : DocumentNode) (e : string) :
  getRoot_runs h n (Throw e) -> e = TypeError.
Proof.
  intros Hrun. remember (Throw e) as c eqn:Ec.
  induction Hrun as [n Hp|n up c Hp Hget _ IH|n Hp Hget|n e' Hp Hget];
    [done|by apply IH|by injection Ec as <-|].
  injection Ec as <-. by apply getParent_throws in Hget as [-> _].
Qed.

End GetRoot.

(** C6: on a node without parent [getRoot] returns the node itself; on a
    node whose chain of [getParent] steps leads to a node for which
    [hasParent] is false, [getRoot] completes and returns that last ancestor. *)
Theorem getRoot_returns_last_ancestor :
  (forall (h : Heap) (this : DocumentNode),
      parent this = None ->
      getRoot_runs h this (Normal this) /\
      forall k, getRoot (S k) h this = Some (Normal this))
  /\
  (forall (h : Heap) (this root : DocumentNode),
      rtc (parent_step h) this root ->
      hasParent root = false ->
      getRoot_runs h this (Normal root) /\
      exists fuel, forall k, fuel <= k -> getRoot k h this = Some (Normal root)).
Proof.
  split.
  - intros h this Hp%hasParent_unset. split; [by apply runs_exit|].
    intros k. simpl. by rewrite Hp.
  - intros h this root Hreach Hroot.
    assert (getRoot_runs h this (Normal root)) as Hrun.
    { eapply getRoot_runs_from_below; [done|]. by apply runs_exit. }
    split; [done|]. by apply getRoot_runs_stable.
Qed.

(** The three-level chain: [getRoot] called on [A] returns [C]. *)
Lemma getRoot_returns_last_ancestor_witness :
  getRoot_runs chain_heap chain_A (Normal chain_C) /\
  exists fuel, forall k, fuel <= k -> getRoot k chain_heap chain_A = Some (Normal chain_C).
Proof.
  apply (proj2 getRoot_returns_last_ancestor chain_heap chain_A chain_C).
  - apply rtc_l with chain_B; [split; reflexivity|].
    apply rtc_l with chain_C; [split; reflexivity|]. apply rtc_refl.
  - reflexivity.
Defined.

(** C2, as the code has it: [getRoot] completes exactly when the chain of
    [getParent] steps ends after finitely many steps, in a node without
    parent or in one whose parent cannot be fetched; the traversal keeps no
    record of visited nodes and never fails with a [CyclicStructureError]. *)
Theorem getRoot_completes_iff_chain_ends (h : Heap) (this : DocumentNode) :
  (forall fuel, getRoot fuel h this <> Some (Throw "CyclicStructureError"))
  /\
  ((exists fuel c, getRoot fuel h this = Some c) <->
   (exists last, rtc (parent_step h) this last /\
      (hasParent last = false \/ forall up, getParent h last <> Normal (Some up)))).
Proof.
  split; [|split].
  - intros fuel Hrun. by apply getRoot_fuel_runs, getRoot_runs_throws in Hrun.
  - intros (fuel & c & Hrun). by eapply getRoot_runs_end, getRoot_fuel_runs.
  - intros (last & Hreach & Hend).
    assert (exists c, getRoot_runs h last c) as [c Hlast].
    { destruct (hasParent last) eqn:Hp.
      - destruct Hend as [|Hend]; [done|].
        destruct (getParent h last) as [[up|]|e] eqn:Hget.
        + by destruct (Hend up).
        + eexists. by apply runs_undefined.
        + eexists. by apply runs_throw.
      - eexists. by apply runs_exit. }
    destruct (getRoot_runs_fuel h this c) as [fuel Hrun]; [|by exists fuel, c].
    by eapply getRoot_runs_from_below.
Qed.

(** On two nodes that are each other's parent the loop never exits: no
    amount of fuel yields a completion, a [CyclicStructureError] least of all. *)
Lemma getRoot_cycle_never_completes :
  parent_step cyc_heap cyc_A cyc_B /\
  parent_step cyc_heap cyc_B cyc_A /\
  ~ (exists fuel c, getRoot fuel cyc_heap cyc_A = Some c).
Proof.
  split; [by split|]. split; [by split|].
  assert (forall fuel, getRoot fuel cyc_heap cyc_A = None
                     /\ getRoot fuel cyc_heap cyc_B = None) as Hloop.
  { induction fuel as [|fuel [IHa IHb]]; [done|].
    split; [exact IHb|exact IHa]. }
  intros (fuel & c & Hrun). destruct (Hloop fuel) as [Ha _]. congruence.
Qed.

(** C1, as the code has it: when the Document of a node cannot resolve the
    parent id, [getParent] returns the [undefined] of the lookup; a [getRoot]
    whose traversal comes to such a node fails with the [TypeError] of calling
    [hasParent] on [undefined]. *)
Theorem getParent_unresolved_is_undefined
    (h : Heap) (this : DocumentNode) (r : DocRef) (p : string) :
  document this = Some r ->
  parent this = Some p ->
  Document_get (h r) (Some p) = None ->
  getParent h this = Normal None
  /\ (p <> "" ->
      forall start, rtc (parent_step h) start this ->
        getRoot_runs h start (Throw TypeError) /\
        exists fuel, forall k, fuel <= k -> getRoot k h start = Some (Throw TypeError)).
Proof.
  intros Hdoc Hpar Hget.
  assert (getParent h this = Normal None) as Hparent.
  { unfold getParent. by rewrite Hdoc, Hpar, Hget. }
  split; [done|]. intros Hp start Hreach.
  assert (hasParent this = true) as Hhas.
  { unfold hasParent. rewrite Hpar. simpl. by destruct p. }
  assert (getRoot_runs h start (Throw TypeError)) as Hrun.
  { eapply getRoot_runs_from_below; [done|]. by apply runs_undefined. }
  split; [done|]. by apply getRoot_runs_stable.
Qed.

Lemma getParent_unresolved_is_undefined_witness :
  getParent orphan_heap orphan = Normal None
  /\ ("gone" <> "" ->
      forall start, rtc (parent_step orphan_heap) start orphan ->
        getRoot_runs orphan_heap start (Throw TypeError) /\
        exists fuel, forall k, fuel <= k ->
          getRoot k orphan_heap start = Some (Throw TypeError)).
Proof.
  apply (getParent_unresolved_is_undefined orphan_heap orphan 0 "gone");
    reflexivity.
Defined.

(** The parent id ["gone"] of [orphan] is set and unknown to its Document,
    yet [getParent] returns normally, and [getRoot] throws a [TypeError]. *)
Lemma getParent_unresolved_does_not_throw :
  parent orphan = Some "gone" /\
  Document_get (orphan_heap 0) (Some "gone") = None /\
  getParent orphan_heap orphan = Normal None /\
  getParent orphan_heap orphan <> Throw "UnresolvedReferenceError" /\
  getRoot 2 orphan_heap orphan = Some (Throw "TypeError") /\
  ~ (exists fuel, getRoot fuel orphan_heap orphan = Some (Throw "UnresolvedReferenceError")).
Proof.
  repeat split; try done.
  intros [fuel Hrun]. by apply getRoot_fuel_runs, getRoot_runs_throws in Hrun.
Qed.

(** ** Subscribing and unsubscribing *)

(** When the schema read is truthy. *)
Lemma inherited_In (name : string) :
  inherited name = true <-> In name Object_prototype.
Proof.
  unfold inherited. rewrite List.existsb_exists. split.
  - intros (x & Hin & Heq). by apply String.eqb_eq in Heq as ->.
  - intros Hin. exists name. split; [done|apply String.eqb_refl].
Qed.

Lemma schema_truthy_true (cls : NodeClass) (name : string) :
  schema_truthy cls name = true <->
  declares cls name = true \/ In name Object_prototype.
Proof.
  unfold schema_truthy. rewrite orb_true_iff. by rewrite inherited_In.
Qed.

Lemma schema_truthy_false (cls : NodeClass) (name : string) :
  schema_truthy cls name = false <->
  declares cls name = false /\ ~ In name Object_prototype.
Proof.
  unfold schema_truthy. rewrite orb_false_iff, <- inherited_In.
  by rewrite not_true_iff_false.
Qed.

Section Subscriptions.

Context (h : Heap) (this : DocumentNode).

(** [on], branch by branch. *)
Lemma on_cases (eventName : string) (handler : Handler) (ctx : Context) :
  on eventName handler ctx h this =
  match _matchPropertyEvent eventName with
  | Some propertyName =>
      if schema_truthy (constructor this) propertyName then
        match document this with
        | Some r =>
            Normal (heap_update r (update_proxy "path"
                      (PathEventProxy_on [id this; propertyName] handler ctx)) h,
                    subscribed this eventName handler ctx)
        | None => Throw TypeError
        end
      else Normal (h, subscribed this eventName handler ctx)
  | None => Normal (h, subscribed this eventName handler ctx)
  end.
Proof.
  unfold on, call_proxy, getDocument.
  destruct (_matchPropertyEvent eventName) as [p|]; [|done].
  destruct (schema_truthy (constructor this) p); [|done].
  by destruct (document this).
Qed.

(** [off], branch by branch. *)
Lemma off_cases (ctx : Context) (eventName : option string) (handler : option Handler) :
  off ctx eventName handler h this =
  if negb (Boolean eventName) then
    match document this with
    | Some r =>
        Normal (heap_update r (update_proxy "path"
                  (PathEventProxy_off ctx None None)) h,
                unsubscribed this ctx eventName handler)
    | None => Throw TypeError
    end
  else
    match eventName ≫= _matchPropertyEvent with
    | Some propertyName =>
        match document this with
        | Some r =>
            Normal (heap_update r (update_proxy "path"
                      (PathEventProxy_off ctx (Some [id this; propertyName]) handler)) h,
                    unsubscribed this ctx eventName handler)
        | None => Throw TypeError
        end
    | None => Normal (h, unsubscribed this ctx eventName handler)
    end.
Proof.
  unfold off, call_proxy, getDocument.
  destruct (negb (Boolean eventName)).
  - by destruct (document this).
  - simpl. destruct (eventName ≫= _matchPropertyEvent) as [p|]; [|done].
    by destruct (document this).
Qed.

(** What a call that returns has done to the node itself. *)
Lemma on_returns (eventName : string) (handler : Handler) (ctx : Context)
    (h' : Heap) (this' : DocumentNode) :
  on eventName handler ctx h this = Normal (h', this') ->
  this' = subscribed this eventName handler ctx.
Proof.
  rewrite on_cases. intros Hon.
  repeat match type of Hon with
         | context [match ?x with _ => _ end] => destruct x
         end; congruence.
Qed.

Lemma off_returns (ctx : Context) (eventName : option string)
    (handler : option Handler) (h' : Heap) (this' : DocumentNode) :
  off ctx eventName handler h this = Normal (h', this') ->
  this' = unsubscribed this ctx eventName handler.
Proof.
  rewrite off_cases. intros Hoff.
  repeat match type of Hoff with
         | context [match ?x with _ => _ end] => destruct x
         end; congruence.
Qed.

End Subscriptions.

(** Reading the heap after an update. *)
Lemma path_proxy_updated (h : Heap) (r : DocRef) (m : PathEventProxy -> PathEventProxy) :
  path_proxy (heap_update r (update_proxy "path" m) h) r = m (path_proxy h r).
Proof.
  unfold path_proxy, heap_update, update_proxy, getEventProxy.
  by rewrite Nat.eqb_refl.
Qed.

Lemma nodes_updated (h : Heap) (r r' : DocRef) (name : string)
    (m : PathEventProxy -> PathEventProxy) :
  nodes (heap_update r (update_proxy name m) h r') = nodes (h r').
Proof. unfold heap_update. by destruct (Nat.eqb r' r). Qed.

Lemma other_proxy_updated (h : Heap) (r r' : DocRef) (name : string)
    (m : PathEventProxy -> PathEventProxy) :
  r' <> r \/ name <> "path" ->
  getEventProxy name (heap_update r (update_proxy "path" m) h r')
  = getEventProxy name (h r').
Proof.
  intros Hother. unfold heap_update, update_proxy, getEventProxy.
  destruct (Nat.eqb_spec r' r) as [->|]; [|done].
  destruct Hother as [|Hname]; [done|]. simpl.
  by destruct (String.eqb_spec name "path").
Qed.

(** ** Highlighting *)

Lemma setHighlighted_same (flag scope : JsVal) (this : DocumentNode) :
  highlighted this = flag -> setHighlighted flag scope this = (this, []).
Proof.
  intros <-. unfold setHighlighted, strict_neq.
  by rewrite bool_decide_eq_true_2.
Qed.

Lemma setHighlighted_flip (flag scope : JsVal) (this : DocumentNode) :
  highlighted this <> flag ->
  setHighlighted flag scope this
  = (set_highlight flag scope this, [highlighted_event flag]).
Proof.
  intros Hne. unfold setHighlighted, strict_neq.
  by rewrite bool_decide_eq_false_2.
Qed.

(** C5: setting the flag the node already has changes nothing and emits
    nothing; setting a different flag emits exactly one [highlighted] event
    that carries the new flag. On a node that is not highlighted, two calls
    [setHighlighted(true, "scopeA")] emit once between them, and a following
    [setHighlighted(false, "scopeA")] emits a second event. *)
Theorem setHighlighted_idempotent (this : DocumentNode) (flag scope : JsVal) :
  (highlighted this = flag ->
     setHighlighted flag scope this = (this, []))
  /\
  (highlighted this <> flag ->
     snd (setHighlighted flag scope this) = [highlighted_event flag] /\
     highlighted (fst (setHighlighted flag scope this)) = flag)
  /\
  (highlighted this <> JsBool true ->
     let '(n1, e1) := setHighlighted (JsBool true) (JsString "scopeA") this in
     let '(n2, e2) := setHighlighted (JsBool true) (JsString "scopeA") n1 in
     let '(n3, e3) := setHighlighted (JsBool false) (JsString "scopeA") n2 in
     (e1 ++ e2)%list = [highlighted_event (JsBool true)] /\
     e3 = [highlighted_event (JsBool false)]).
Proof.
  split; [apply setHighlighted_same|]. split.
  - intros Hne. by rewrite setHighlighted_flip.
  - intros Hne. rewrite setHighlighted_flip by done.
    rewrite setHighlighted_same by done.
    by rewrite setHighlighted_flip.
Qed.

(** A fresh paragraph is not highlighted; flipping it to [true] emits once. *)
Lemma setHighlighted_idempotent_witness :
  snd (setHighlighted (JsBool true) (JsString "scopeA") para)
    = [highlighted_event (JsBool true)] /\
  highlighted (fst (setHighlighted (JsBool true) (JsString "scopeA") para))
    = JsBool true.
Proof.
  apply (proj1 (proj2 (setHighlighted_idempotent para (JsBool true) (JsString "scopeA")))).
  discriminate.
Defined.

(** C9: a call with the flag the node already has leaves [highlightedScope]
    as it is, whatever scope is passed, and emits nothing; [highlightedScope]
    differs after a call only if that call also changed [highlighted], in
    which case it is the scope passed. No other method writes it. *)
Theorem setHighlighted_scope_follows_flag
    (this : DocumentNode) (flag scope : JsVal) :
  (highlighted this = flag ->
     highlightedScope (fst (setHighlighted flag scope this)) = highlightedScope this /\
     snd (setHighlighted flag scope this) = [])
  /\
  (highlightedScope (fst (setHighlighted flag scope this)) <> highlightedScope this ->
     highlighted this <> flag /\
     highlighted (fst (setHighlighted flag scope this)) = flag /\
     highlightedScope (fst (setHighlighted flag scope this)) = scope)
  /\
  (forall eventName handler ctx h h' this',
     on eventName handler ctx h this = Normal (h', this') ->
     highlightedScope this' = highlightedScope this /\ highlighted this' = highlighted this)
  /\
  (forall ctx eventName handler h h' this',
     off ctx eventName handler h this = Normal (h', this') ->
     highlightedScope this' = highlightedScope this /\ highlighted this' = highlighted this)
  /\
  (forall propertyName args,
     fst (_onPropertyChange propertyName args this) = this).
Proof.
  split; [|split; [|split; [|split]]].
  - intros Heq. by rewrite setHighlighted_same.
  - intros Hscope. destruct (decide (highlighted this = flag)) as [Heq|Hne].
    + by rewrite setHighlighted_same in Hscope.
    + by rewrite setHighlighted_flip.
  - intros eventName handler ctx h h' this' Hon.
    by rewrite (on_returns _ _ _ _ _ _ _ Hon).
  - intros ctx eventName handler h h' this' Hoff.
    by rewrite (off_returns _ _ _ _ _ _ _ Hoff).
  - done.
Qed.

(** A highlighted paragraph asked to be highlighted again under another
    scope keeps its scope. *)
Lemma setHighlighted_scope_follows_flag_witness :
  let this := fst (setHighlighted (JsBool true) (JsString "scopeA") para) in
  highlightedScope (fst (setHighlighted (JsBool true) (JsString "scopeB") this))
    = JsString "scopeA" /\
  snd (setHighlighted (JsBool true) (JsString "scopeB") this) = [].
Proof.
  apply (proj1 (setHighlighted_scope_follows_flag
                  (fst (setHighlighted (JsBool true) (JsString "scopeA") para))
                  (JsBool true) (JsString "scopeB"))).
  reflexivity.
Defined.

(** What [List.filter] keeps and what it drops. *)
Lemma filter_all {A} (f : A -> bool) (l : list A) :
  Forall (fun x => f x = true) (List.filter f l).
Proof. apply List.Forall_forall. by intros x [_ Hx]%List.filter_In. Qed.




Lemma not_owned_path (ctx : Context) (b : PathBinding) :
  negb (path_binding_selected ctx None None b) = true <-> pb_context b <> ctx.
Proof.
  unfold path_binding_selected. simpl. rewrite !andb_true_r.
  rewrite negb_true_iff. apply bool_decide_eq_false.
Qed.

Lemma not_owned (ctx : Context) (b : Binding) :
  negb (binding_selected ctx None None b) = true <-> b_context b <> ctx.
Proof.
  unfold binding_selected. simpl. rewrite !andb_true_r.
  rewrite negb_true_iff. apply bool_decide_eq_false.
Qed.

(** C3, as the code has it: the expression is searched for anywhere in the
    event name. When it finds a property name under which the schema read is
    truthy, that is a name the schema declares or one of the names every
    object inherits from [Object.prototype], the handler is installed on the
    path proxy of the Document for the path (node id, property name) and as a
    local listener; when it finds nothing, or a name that is neither declared
    nor inherited, the subscription is local, the heap is left as it is and
    nothing is thrown. A name that is exactly a word over [[a-zA-Z_0-9]]
    followed by [":changed"] yields that word, and a name in which no such
    word stands in front of [":changed"] yields nothing. *)
Theorem on_routes_by_search (h : Heap) (this : DocumentNode) (r : DocRef)
    (eventName : string) (handler : Handler) (ctx : Context) :
  document this = Some r ->
  (forall p,
     _matchPropertyEvent eventName = Some p ->
     declares (constructor this) p = true \/ In p Object_prototype ->
     exists h',
       on eventName handler ctx h this
         = Normal (h', subscribed this eventName handler ctx) /\
       path_proxy h' r
         = (path_proxy h r ++
            [{| pb_path := [id this; p]; pb_method := handler; pb_context := ctx |}])%list /\
       listeners (subscribed this eventName handler ctx)
         = (listeners this ++
            [{| b_event := eventName; b_method := handler; b_context := ctx |}])%list /\
       (forall r' name, r' <> r \/ name <> "path" ->
          getEventProxy name (h' r') = getEventProxy name (h r')) /\
       (forall r', nodes (h' r') = nodes (h r')))
  /\
  ((forall p, _matchPropertyEvent eventName = Some p ->
              declares (constructor this) p = false /\ ~ In p Object_prototype) ->
   on eventName handler ctx h this
     = Normal (h, subscribed this eventName handler ctx) /\
   listeners (subscribed this eventName handler ctx)
     = (listeners this ++
        [{| b_event := eventName; b_method := handler; b_context := ctx |}])%list)
  /\
  (forall p, word p -> eventName = p ++ ":changed" ->
             _matchPropertyEvent eventName = Some p)
  /\
  ((~ exists pre w post, word w /\ eventName = pre ++ w ++ ":changed" ++ post) ->
   _matchPropertyEvent eventName = None).
Proof.
  intros Hdoc. split; [|split; [|split]].
  - intros p Hmatch Hdecl%schema_truthy_true. eexists.
    rewrite on_cases, Hmatch, Hdecl, Hdoc.
    split; [done|]. split; [apply path_proxy_updated|]. split; [done|].
    split; [intros r' name; apply other_proxy_updated|intros r'; apply nodes_updated].
  - intros Hnone. rewrite on_cases. split; [|done].
    destruct (_matchPropertyEvent eventName) as [p|]; [|done].
    by rewrite (proj2 (schema_truthy_false _ _) (Hnone p eq_refl)).
  - intros p Hp ->. by apply match_exact.
  - intros Hnone. destruct (_matchPropertyEvent eventName) as [p|] eqn:Hmatch; [|done].
    destruct (match_sound _ _ Hmatch) as [Hw (pre & post & ->)].
    destruct Hnone. by exists pre, p, post.
Qed.

(** Subscribing to ["content:changed"] on a paragraph of a Document. *)
Lemma on_routes_by_search_witness :
  exists h',
    on "content:changed" 7 1 para_heap para
      = Normal (h', subscribed para "content:changed" 7 1) /\
    path_proxy h' 0
      = [{| pb_path := ["n1"; "content"]; pb_method := 7; pb_context := 1 |}] /\
    listeners (subscribed para "content:changed" 7 1)
      = [{| b_event := "content:changed"; b_method := 7; b_context := 1 |}].
Proof.
  destruct (proj1 (on_routes_by_search para_heap para 0 "content:changed" 7 1 eq_refl)
              "content" eq_refl (or_introl eq_refl))
    as (h' & Hon & Hproxy & Hlocal & _).
  exists h'. split; [exact Hon|]. split; [exact Hproxy|exact Hlocal].
Defined.

(** ["x-content:changed"] is ["<p>:changed"] for the undeclared
    [p = "x-content"], and not for the declared ["content"]; still the
    handler ends up on the path proxy, under the path of [content]. And
    ["toString:changed"], for the undeclared [toString], puts the handler
    on the path proxy as well. *)
Lemma on_undeclared_name_reaches_proxy :
  declares (constructor para) "x-content" = false /\
  "x-content:changed" <> "content" ++ ":changed" /\
  path_proxy para_heap 0 = [] /\
  (exists h',
     on "x-content:changed" 7 1 para_heap para
       = Normal (h', subscribed para "x-content:changed" 7 1) /\
     path_proxy h' 0
       = [{| pb_path := ["n1"; "content"]; pb_method := 7; pb_context := 1 |}]) /\
  declares (constructor para) "toString" = false /\
  (exists h',
     on "toString:changed" 7 1 para_heap para
       = Normal (h', subscribed para "toString:changed" 7 1) /\
     path_proxy h' 0
       = [{| pb_path := ["n1"; "toString"]; pb_method := 7; pb_context := 1 |}]).
Proof.
  split; [done|]. split; [done|]. split; [done|].
  split; [eexists; split; [reflexivity|done]|].
  split; [done|]. eexists. split; [reflexivity|done].
Qed.




(** On a detached node [on] throws exactly when the event name leads to the
    path proxy. *)
Lemma detached_on_throws_iff (h : Heap) (this : DocumentNode)
    (eventName : string) (handler : Handler) (ctx : Context) :
  document this = None ->
  (on eventName handler ctx h this = Throw TypeError <->
   exists p, _matchPropertyEvent eventName = Some p /\
             schema_truthy (constructor this) p = true)
  /\
  ((~ exists p, _matchPropertyEvent eventName = Some p /\
                schema_truthy (constructor this) p = true) ->
   on eventName handler ctx h this
     = Normal (h, subscribed this eventName handler ctx)).
Proof.
  intros Hdoc. rewrite on_cases.
  destruct (_matchPropertyEvent eventName) as [p|] eqn:Hmatch;
    [destruct (schema_truthy (constructor this) p) eqn:Hdecl|].
  - rewrite Hdoc. split; [split; [by exists p|done]|].
    intros Hnone. destruct Hnone. by exists p.
  - split; [split; [done|]|done]. intros (q & [= <-] & Hq). congruence.
  - split; [split; [done|]|done]. by intros (q & [=] & _).
Qed.

(** C10, as the code has it: on a node that was constructed without a
    Document, [on] throws exactly when the expression finds in the event name
    a property name under which the schema read is truthy: a name the schema
    declares or a name every object inherits from [Object.prototype]. So it
    throws for ["<propertyName>:changed"] when the property name is a word
    over [[a-zA-Z_0-9]] and is declared or inherited. Every other
    subscription is made locally and returns. [off] without an event name
    always throws. Each failure is the [TypeError] of calling
    [getEventProxy] on the missing document. *)
Theorem detached_subscriptions (h : Heap) (this : DocumentNode) :
  document this = None ->
  (forall eventName handler ctx,
     on eventName handler ctx h this = Throw TypeError <->
     exists p, _matchPropertyEvent eventName = Some p /\
               (declares (constructor this) p = true \/ In p Object_prototype))
  /\
  (forall eventName handler ctx,
     (~ exists p, _matchPropertyEvent eventName = Some p /\
                  (declares (constructor this) p = true \/ In p Object_prototype)) ->
     on eventName handler ctx h this
       = Normal (h, subscribed this eventName handler ctx))
  /\
  (forall p handler ctx,
     word p ->
     declares (constructor this) p = true \/ In p Object_prototype ->
     on (p ++ ":changed") handler ctx h this = Throw TypeError)
  /\
  (forall ctx handler, off ctx None handler h this = Throw TypeError).
Proof.
  intros Hdoc.
  assert (forall eventName,
    (exists p, _matchPropertyEvent eventName = Some p /\
               (declares (constructor this) p = true \/ In p Object_prototype)) <->
    (exists p, _matchPropertyEvent eventName = Some p /\
               schema_truthy (constructor this) p = true)) as Hread.
  { intros eventName.
    split; intros (p & Hmatch & Hp); exists p; (split; [done|]);
      by apply schema_truthy_true. }
  split; [|split; [|split]].
  - intros eventName handler ctx. rewrite Hread.
    by apply detached_on_throws_iff.
  - intros eventName handler ctx Hnone.
    apply detached_on_throws_iff; [done|]. by rewrite <- Hread.
  - intros p handler ctx Hp Hdecl.
    apply (detached_on_throws_iff h this _ handler ctx Hdoc).
    apply Hread. exists p. split; [by apply match_exact|done].
  - intros ctx handler. by rewrite off_cases, Hdoc.
Qed.

(** A detached paragraph: subscribing to ["content:changed"] and [off(1)]
    throw, subscribing to ["highlighted"] does not. *)
Lemma detached_subscriptions_witness :
  on "content:changed" 7 1 para_heap detached = Throw TypeError /\
  on "highlighted" 7 1 para_heap detached
    = Normal (para_heap, subscribed detached "highlighted" 7 1) /\
  off 1 None None para_heap detached = Throw TypeError.
Proof.
  pose proof (detached_subscriptions para_heap detached eq_refl)
    as (_ & Hreturns & Hexact & Hoff).
  split; [|split].
  - apply (Hexact "content" 7 1);
      [split; [discriminate|reflexivity]|left; reflexivity].
  - apply Hreturns. intros (p & Hmatch & _). discriminate Hmatch.
  - apply Hoff.
Defined.

(** A detached node whose type declares [my-prop] subscribes to
    ["my-prop:changed"] without failing: the expression finds [prop], which
    the schema does not hold. And a detached paragraph fails to subscribe to
    ["constructor:changed"], although its type declares no such property. *)
Lemma detached_on_differs :
  document hyph_detached = None /\
  declares (constructor hyph_detached) "my-prop" = true /\
  on "my-prop:changed" 7 1 para_heap hyph_detached
    = Normal (para_heap, subscribed hyph_detached "my-prop:changed" 7 1) /\
  document detached = None /\
  declares (constructor detached) "constructor" = false /\
  on "constructor:changed" 7 1 para_heap detached = Throw TypeError.
Proof. by repeat split. Qed.

(** ** Categories and children *)

Lemma connect_returns (ctx : Context) (handlers : list (string * Handler))
    (h h' : Heap) (this this' : DocumentNode) :
  connect ctx handlers h this = Normal (h', this') ->
  constructor this' = constructor this.
Proof.
  revert h this. induction handlers as [|[name func] more IH]; intros h this; simpl.
  - by intros [= _ <-].
  - destruct (on name func ctx h this) as [[h1 n1]|e] eqn:Hon; [|done]. simpl.
    intros Hmore%IH. by rewrite Hmore, (on_returns _ _ _ _ _ _ _ Hon).
Qed.

(** C7: each of the five category queries of a node returns the boolean
    that its type holds under the same name, so two nodes of one type answer
    alike whatever else they hold, and [setHighlighted], [on], [off],
    [connect], [disconnect] and [_onPropertyChange] leave the answers of the
    node as they were. A node of the base type answers [false] five times. *)
Theorem categories_fixed_by_type (n1 n2 : DocumentNode) :
  constructor n1 = constructor n2 ->
  (isBlock n1 = static_isBlock (constructor n1) /\
   isText n1 = static_isText (constructor n1) /\
   isPropertyAnnotation n1 = static_isPropertyAnnotation (constructor n1) /\
   isInline n1 = static_isInline (constructor n1) /\
   isContainerAnnotation n1 = static_isContainerAnnotation (constructor n1))
  /\ categories n1
     = [static_isBlock (constructor n1); static_isText (constructor n1);
        static_isPropertyAnnotation (constructor n1);
        static_isInline (constructor n1);
        static_isContainerAnnotation (constructor n1)]
  /\ categories n1 = categories n2
  /\ (forall flag scope,
        categories (fst (setHighlighted flag scope n1)) = categories n1)
  /\ (forall eventName handler ctx h h' n',
        on eventName handler ctx h n1 = Normal (h', n') ->
        categories n' = categories n1)
  /\ (forall ctx eventName handler h h' n',
        off ctx eventName handler h n1 = Normal (h', n') ->
        categories n' = categories n1)
  /\ (forall ctx handlers h h' n',
        connect ctx handlers h n1 = Normal (h', n') ->
        categories n' = categories n1)
  /\ (forall ctx h h' n',
        disconnect ctx h n1 = Normal (h', n') ->
        categories n' = categories n1)
  /\ (forall propertyName args,
        categories (fst (_onPropertyChange propertyName args n1)) = categories n1)
  /\ (forall inherited doc props_id props_parent,
        categories (new_DocumentNode (DocumentNode_class inherited) doc
                      props_id props_parent)
        = [false; false; false; false; false]).
Proof.
  intros Htype. unfold categories, isBlock, isText, isPropertyAnnotation,
    isInline, isContainerAnnotation.
  split; [done|]. split; [done|].
  split; [by rewrite Htype|]. split.
  { intros flag scope. unfold setHighlighted. by destruct (strict_neq _ _). }
  split.
  { intros eventName handler ctx h h' n' Hon.
    by rewrite (on_returns _ _ _ _ _ _ _ Hon). }
  split.
  { intros ctx eventName handler h h' n' Hoff.
    by rewrite (off_returns _ _ _ _ _ _ _ Hoff). }
  split.
  { intros ctx handlers h h' n' Hcon. by rewrite (connect_returns _ _ _ _ _ _ Hcon). }
  split.
  { intros ctx h h' n' Hoff. by rewrite (off_returns _ _ _ _ _ _ _ Hoff). }
  by split.
Qed.

(** Two paragraphs with different ids, parents and subscriptions: both are
    block and text nodes, and nothing else. *)
Lemma categories_fixed_by_type_witness :
  (isBlock busy_para = true /\
   isText busy_para = true /\
   isPropertyAnnotation busy_para = false /\
   isInline busy_para = false /\
   isContainerAnnotation busy_para = false) /\
  categories busy_para = categories chain_A.
Proof.
  destruct (categories_fixed_by_type busy_para chain_A eq_refl)
    as (Hflags & _ & Hsame & _).
  split; [exact Hflags|exact Hsame].
Defined.

(** C8: a node that does not override the defaults has no children:
    [hasChildren] is [false], [getChildCount] is [0], [getChildAt] is [null]
    at every index and [getChildIndex] is [-1] for every argument. *)
Theorem default_node_has_no_children
    (this : DocumentNode) (A B : Type) (idx : A) (child : B) :
  hasChildren this = false /\
  getChildCount this = 0%Z /\
  getChildAt this idx = None /\
  getChildIndex this child = (-1)%Z.
Proof. done. Qed.

(** * Further properties of the code *)

(** ** The expression of [_matchPropertyEvent] *)

Lemma length_append (s t : string) :
  String.length (s ++ t) = String.length s + String.length t.
Proof. induction s as [|c s IH]; simpl; [done|]. by rewrite IH. Qed.

Lemma append_assoc (s t u : string) : (s ++ t) ++ u = s ++ t ++ u.
Proof.
  induction s as [|c s IH]; [done|].
  change (String c ((s ++ t) ++ u) = String c (s ++ t ++ u)). by rewrite IH.
Qed.

(** A string that is not empty ends in a character. *)
Lemma string_snoc (s : string) :
  s <> "" -> exists s0 c, s = s0 ++ String c "".
Proof.
  induction s as [|c s IH]; [done|]. intros _.
  destruct s as [|d s].
  - by exists "", c.
  - destruct IH as (s0 & e & Hs); [done|]. exists (String c s0), e.
    by rewrite Hs.
Qed.

(** X1: the expression finds a property name in an event name exactly when
    the name contains, anywhere, a non-empty run of characters of
    [[a-zA-Z_0-9]] directly followed by [":changed"]. *)
Theorem match_iff_contains (s : string) :
  is_Some (_matchPropertyEvent s) <->
  exists pre w post, word w /\ s = pre ++ w ++ ":changed" ++ post.
Proof.
  split.
  - intros [p Hmatch]. destruct (match_sound _ _ Hmatch) as [Hw (pre & post & Hs)].
    by exists pre, p, post.
  - intros (pre & w & post & Hw & ->). by apply match_complete.
Qed.

(** X2: the property name that is found starts the leftmost occurrence, and
    it is a whole run: it consists of class characters, [":changed"]
    follows it, and it stands at the start of the event name or behind a
    character outside the class, never in the middle of a longer word. *)
Theorem match_is_leftmost_whole_run (s p : string) :
  _matchPropertyEvent s = Some p ->
  exists pre post,
    s = pre ++ p ++ ":changed" ++ post /\
    word p /\
    (pre = "" \/ exists pre0 c, pre = pre0 ++ String c "" /\ is_word_char c = false) /\
    (forall pre' w post',
       word w -> s = pre' ++ w ++ ":changed" ++ post' ->
       String.length pre <= String.length pre').
Proof.
  intros Hmatch. destruct (match_sound _ _ Hmatch) as [Hw _].
  destruct (match_leftmost _ _ Hmatch) as (pre & post & Hs & Hleft).
  exists pre, post. split; [done|]. split; [done|]. split; [|done].
  destruct pre as [|d pre]; [by left|right].
  destruct (string_snoc (String d pre)) as (pre0 & c & Hpre); [done|].
  exists pre0, c. split; [done|].
  destruct (is_word_char c) eqn:Hc; [|done].
  assert (word (String c p)) as Hcp.
  { destruct Hw as [_ Hall]. split; [done|]. simpl. by rewrite Hc, Hall. }
  pose proof (Hleft pre0 (String c p) post Hcp) as Hle.
  rewrite Hpre in Hle. rewrite length_append in Hle. simpl in Hle.
  enough (String.length pre0 + 1 <= String.length pre0) by lia.
  apply Hle. rewrite Hs, Hpre. by rewrite append_assoc.
Qed.

(** In ["a.xcontent:changed"] the name found is ["xcontent"], behind the
    dot. *)
Lemma match_is_leftmost_whole_run_witness :
  exists pre post,
    "a.xcontent:changed" = pre ++ "xcontent" ++ ":changed" ++ post /\
    word "xcontent" /\
    (pre = "" \/ exists pre0 c, pre = pre0 ++ String c "" /\ is_word_char c = false) /\
    (forall pre' w post',
       word w -> "a.xcontent:changed" = pre' ++ w ++ ":changed" ++ post' ->
       String.length pre <= String.length pre').
Proof.
  apply (match_is_leftmost_whole_run "a.xcontent:changed" "xcontent").
  reflexivity.
Defined.

(** ** More on the traversal of [getRoot] *)

Section GetRootMore.

Context (h : Heap).

Lemma getRoot_runs_normal_end (n r : DocumentNode) :
  getRoot_runs h n (Normal r) ->
  rtc (parent_step h) n r /\ hasParent r = false.
Proof.
  intros Hrun. remember (Normal r) as c eqn:Ec.
  induction Hrun as [n Hp|n up c Hp Hget _ IH|n Hp Hget|n e Hp Hget];
    [|destruct (IH Ec) as [Hreach Hroot]|done..].
  - injection Ec as <-. split; [apply rtc_refl|done].
  - split; [|done]. by eapply rtc_l; [split|].
Qed.

(** One iteration of the loop moves to the parent and costs one unit of fuel. *)
Lemma getRoot_step (n up : DocumentNode) (fuel : nat) :
  parent_step h n up -> getRoot (S fuel) h n = getRoot fuel h up.
Proof. intros [Hp Hget]. simpl. by rewrite Hp, Hget. Qed.

Lemma getRoot_rtc_fuel (n m : DocumentNode) (c : Completion DocumentNode) :
  rtc (parent_step h) n m ->
  forall fuel, getRoot fuel h n = Some c ->
  exists fuel', fuel' <= fuel /\ getRoot fuel' h m = Some c.
Proof.
  induction 1 as [n|n up m Hstep _ IH]; intros fuel Hrun; [by exists fuel|].
  destruct fuel as [|fuel]; [done|]. rewrite (getRoot_step _ _ _ Hstep) in Hrun.
  destruct (IH _ Hrun) as (fuel' & Hle & Hm). exists fuel'. split; [lia|done].
Qed.

Lemma getRoot_tc_fuel (n m : DocumentNode) (c : Completion DocumentNode) :
  tc (parent_step h) n m ->
  forall fuel, getRoot fuel h n = Some c ->
  exists fuel', fuel' < fuel /\ getRoot fuel' h m = Some c.
Proof.
  intros Htc fuel Hrun.
  assert (exists up, parent_step h n up /\ rtc (parent_step h) up m)
    as (up & Hstep & Hrest).
  { destruct Htc as [n m Hstep|n up m Hstep Hrest].
    - exists m. split; [done|apply rtc_refl].
    - exists up. split; [done|by apply tc_rtc]. }
  destruct fuel as [|fuel]; [done|]. rewrite (getRoot_step _ _ _ Hstep) in Hrun.
  destruct (getRoot_rtc_fuel up m c Hrest fuel Hrun) as (fuel' & Hle & Hm).
  exists fuel'. split; [lia|done].
Qed.

End GetRootMore.

(** X3: a node that [getRoot] returns is reached from the start by
    [getParent] steps, has no parent, and is its own root: [getRoot] called
    on it returns it again. *)
Theorem getRoot_result_is_a_root
    (h : Heap) (this r : DocumentNode) (fuel : nat) :
  getRoot fuel h this = Some (Normal r) ->
  rtc (parent_step h) this r /\
  hasParent r = false /\
  forall k, getRoot (S k) h r = Some (Normal r).
Proof.
  intros Hrun%getRoot_fuel_runs%getRoot_runs_normal_end.
  destruct Hrun as [Hreach Hroot]. split; [done|]. split; [done|].
  intros k. simpl. by rewrite Hroot.
Qed.

Lemma getRoot_result_is_a_root_witness :
  rtc (parent_step chain_heap) chain_A chain_C /\
  hasParent chain_C = false /\
  forall k, getRoot (S k) chain_heap chain_C = Some (Normal chain_C).
Proof.
  apply (getRoot_result_is_a_root chain_heap chain_A chain_C 3). reflexivity.
Defined.

(** X4: a node and each of its ancestors have the same outcome of [getRoot]:
    the same root, the same failure, or no completion for either. *)
Theorem getRoot_same_for_ancestors
    (h : Heap) (this up : DocumentNode) (c : Completion DocumentNode) :
  rtc (parent_step h) this up ->
  (exists fuel, getRoot fuel h this = Some c) <->
  (exists fuel, getRoot fuel h up = Some c).
Proof.
  intros Hreach. split.
  - intros [fuel Hrun].
    destruct (getRoot_rtc_fuel h this up c Hreach fuel Hrun) as (fuel' & _ & Hup).
    by exists fuel'.
  - intros [fuel Hrun%getRoot_fuel_runs]. apply getRoot_runs_fuel.
    by eapply getRoot_runs_from_below.
Qed.

Lemma getRoot_same_for_ancestors_witness :
  (exists fuel, getRoot fuel chain_heap chain_A = Some (Normal chain_C)) <->
  (exists fuel, getRoot fuel chain_heap chain_B = Some (Normal chain_C)).
Proof.
  apply (getRoot_same_for_ancestors chain_heap chain_A chain_B).
  apply rtc_once. split; reflexivity.
Defined.

(** X5: when the [getParent] steps from a node lead into a cycle, the loop of
    [getRoot] is still running after any number of iterations: the call
    neither returns nor throws. *)
Theorem getRoot_hangs_on_cycle (h : Heap) (this n : DocumentNode) :
  rtc (parent_step h) this n ->
  tc (parent_step h) n n ->
  forall fuel, getRoot fuel h this = None.
Proof.
  intros Hreach Hcycle.
  assert (forall fuel c, getRoot fuel h n <> Some c) as Hn.
  { induction fuel as [fuel IH] using lt_wf_ind. intros c Hrun.
    destruct (getRoot_tc_fuel h n n c Hcycle fuel Hrun) as (fuel' & Hlt & Hrun').
    by apply (IH fuel' Hlt c). }
  intros fuel. destruct (getRoot fuel h this) as [c|] eqn:Hrun; [|done].
  destruct (getRoot_rtc_fuel h this n c Hreach fuel Hrun) as (fuel' & _ & Hrun').
  by destruct (Hn fuel' c).
Qed.

Lemma getRoot_hangs_on_cycle_witness :
  getRoot 1000 cyc_heap cyc_A = None.
Proof.
  apply (getRoot_hangs_on_cycle cyc_heap cyc_A cyc_A); [apply rtc_refl|].
  apply tc_l with cyc_B; [split; reflexivity|].
  apply tc_once. split; reflexivity.
Defined.

(** X6: [getRoot] throws exactly when the [getParent] steps lead to a node
    that names a parent and either has no document or has a document that
    does not know the parent; what it throws is always a [TypeError]. *)
Theorem getRoot_throws_iff (h : Heap) (this : DocumentNode) :
  ((exists fuel e, getRoot fuel h this = Some (Throw e)) <->
   (exists last,
      rtc (parent_step h) this last /\ hasParent last = true /\
      (document last = None \/ getParent h last = Normal None)))
  /\
  (forall fuel e, getRoot fuel h this = Some (Throw e) -> e = TypeError).
Proof.
  split; [split|].
  - intros (fuel & e & Hrun%getRoot_fuel_runs).
    remember (Throw e) as c eqn:Ec.
    induction Hrun as [n Hp|n up c Hp Hget _ IH|n Hp Hget|n e' Hp Hget]; [done| | |].
    + destruct (IH Ec) as (last & Hreach & Hend). exists last.
      split; [|done]. by eapply rtc_l; [split|].
    + exists n. split; [apply rtc_refl|]. split; [done|by right].
    + exists n. split; [apply rtc_refl|]. split; [done|left].
      by apply getParent_throws in Hget as [_ Hdoc].
  - intros (last & Hreach & Hp & Hend).
    assert (getRoot_runs h last (Throw TypeError)) as Hlast.
    { destruct Hend as [Hdoc|Hget]; [|by apply runs_undefined].
      apply runs_throw; [done|]. unfold getParent. by rewrite Hdoc. }
    destruct (getRoot_runs_fuel h this (Throw TypeError)) as [fuel Hrun];
      [by eapply getRoot_runs_from_below|].
    by exists fuel, TypeError.
  - intros fuel e Hrun. by apply getRoot_fuel_runs, getRoot_runs_throws in Hrun.
Qed.

(** X7: [getRoot] returns the very node it is called on exactly when the
    [parent] of that node is [undefined] or the empty string; the Document is
    then not consulted, so this holds for a detached node as well. *)
Theorem getRoot_returns_itself_iff (h : Heap) (this : DocumentNode) :
  ((exists fuel, getRoot fuel h this = Some (Normal this)) <->
   (parent this = None \/ parent this = Some ""))
  /\
  (parent this = None \/ parent this = Some "" ->
   forall h' k, getRoot (S k) h' this = Some (Normal this)).
Proof.
  assert (hasParent this = false <-> parent this = None \/ parent this = Some "")
    as Hfalsy.
  { unfold hasParent, Boolean. destruct (parent this) as [[|c s]|]; simpl;
      (split; [intros ?; first [done|by left|by right]|by intros [?|?]]). }
  split; [split|].
  - intros [fuel Hrun%getRoot_fuel_runs%getRoot_runs_normal_end].
    by apply Hfalsy, Hrun.
  - intros Hp%Hfalsy. exists 1. simpl. by rewrite Hp.
  - intros Hp%Hfalsy h' k. simpl. by rewrite Hp.
Qed.

(** A node whose parent id is the empty string, in a Document that has a
    node with the empty id: [getParent] finds that node, [getRoot] stays. *)
Example getRoot_blank_parent :
  getParent blank_heap blank_child = Normal (Some blank_root) /\
  getRoot 5 blank_heap blank_child = Some (Normal blank_child).
Proof. by split. Qed.

(** ** More on highlighting *)

Lemma last_cons {A} (a d : A) (l : list A) : List.last (a :: l) d = List.last l a.
Proof.
  revert a d. induction l as [|b l IH]; intros a d; [done|].
  change (List.last (b :: l) d = List.last (b :: l) a). by rewrite !IH.
Qed.

(** X8: whatever the arguments, after [setHighlighted(flag, scope)] the
    field [highlighted] holds [flag], at most one event has been emitted, a
    [highlighted] event carrying [flag], and nothing else of the node has
    changed: type, id, parent, document and subscriptions are the same. *)
Theorem setHighlighted_touches_highlight_only
    (this : DocumentNode) (flag scope : JsVal) :
  let '(n', es) := setHighlighted flag scope this in
  highlighted n' = flag /\
  (es = [] \/ es = [highlighted_event flag]) /\
  constructor n' = constructor this /\
  id n' = id this /\
  parent n' = parent this /\
  document n' = document this /\
  listeners n' = listeners this.
Proof.
  destruct (decide (highlighted this = flag)) as [Heq|Hne].
  - rewrite setHighlighted_same by done. split; [done|]. split; [by left|done].
  - rewrite setHighlighted_flip by done. split; [done|]. split; [by right|done].
Qed.

(** X9: over any sequence of [setHighlighted] calls on a node, each emitted
    [highlighted] event carries a flag different from the one before it (the
    first from the value the node started with), there are no more events
    than calls, and the node ends with the flag of the last call. *)
Theorem setHighlighted_events_alternate
    (calls : list (JsVal * JsVal)) (this : DocumentNode) :
  let '(n', es) := setHighlighted_each calls this in
  alternating (highlighted this) (List.concat (List.map em_args es)) /\
  Forall (fun e => em_event e = "highlighted") es /\
  length es <= length calls /\
  highlighted n' = List.last (List.map fst calls) (highlighted this).
Proof.
  revert this. induction calls as [|[flag scope] more IH]; intros this; [done|].
  cbn [setHighlighted_each].
  destruct (decide (highlighted this = flag)) as [Heq|Hne].
  - rewrite setHighlighted_same by done. specialize (IH this).
    destruct (setHighlighted_each more this) as [n' es].
    destruct IH as (Halt & Hnames & Hlen & Hlast). simpl fst.
    change (List.map fst ((flag, scope) :: more)) with (flag :: List.map fst more).
    rewrite last_cons, <- Heq. repeat split; [done..|simpl; lia|done].
  - rewrite setHighlighted_flip by done.
    specialize (IH (set_highlight flag scope this)).
    destruct (setHighlighted_each more (set_highlight flag scope this)) as [n' es].
    destruct IH as (Halt & Hnames & Hlen & Hlast).
    change (List.map fst ((flag, scope) :: more)) with (flag :: List.map fst more).
    rewrite last_cons. simpl in *. repeat split; [done..| |lia|done].
    by apply Forall_cons.
Qed.

(** ** More on subscriptions *)



(** X10: [off] with an event name that is not empty and in which the
    expression finds nothing deregisters locally only: the heap is left as it
    is and nothing is thrown, on a detached node too. *)
Theorem off_unmatched_is_local (h : Heap) (this : DocumentNode)
    (ctx : Context) (eventName : string) (handler : option Handler) :
  eventName <> "" ->
  _matchPropertyEvent eventName = None ->
  off ctx (Some eventName) handler h this
  = Normal (h, unsubscribed this ctx (Some eventName) handler).
Proof.
  intros Hne Hnone. rewrite off_cases. simpl. rewrite Hnone.
  by destruct eventName.
Qed.

Lemma off_unmatched_is_local_witness :
  off 1 (Some "highlighted") None para_heap detached
  = Normal (para_heap, unsubscribed detached 1 (Some "highlighted") None).
Proof.
  apply (off_unmatched_is_local para_heap detached 1 "highlighted" None);
    [discriminate|reflexivity].
Defined.

(** X11: when the event name is left out or is the empty string, [off] asks
    the path proxy to drop every subscription of the context; a handler that
    is passed along does not narrow this. The heap that results is the one of
    [off(ctx)]. *)
Theorem off_without_name_ignores_handler (h : Heap) (this : DocumentNode)
    (r : DocRef) (ctx : Context) (eventName : option string)
    (handler : option Handler) :
  document this = Some r ->
  Boolean eventName = false ->
  exists h',
    off ctx eventName handler h this
      = Normal (h', unsubscribed this ctx eventName handler) /\
    off ctx None None h this = Normal (h', unsubscribed this ctx None None) /\
    path_proxy h' r = PathEventProxy_off ctx None None (path_proxy h r) /\
    Forall (fun b => pb_context b <> ctx) (path_proxy h' r).
Proof.
  intros Hdoc Hfalsy. eexists. rewrite !off_cases, Hfalsy, Hdoc. simpl.
  split; [done|]. split; [done|]. rewrite path_proxy_updated. split; [done|].
  eapply Forall_impl; [apply filter_all|]. intros b. apply not_owned_path.
Qed.

(** [off(1, "", 7)] on the paragraph with subscriptions: the subscription of
    context [1] goes although its handler is [7] and the name is empty. *)
Lemma off_without_name_ignores_handler_witness :
  exists h',
    off 1 (Some "") (Some 8) busy_heap busy_para
      = Normal (h', unsubscribed busy_para 1 (Some "") (Some 8)) /\
    off 1 None None busy_heap busy_para
      = Normal (h', unsubscribed busy_para 1 None None) /\
    path_proxy h' 0 = PathEventProxy_off 1 None None (path_proxy busy_heap 0) /\
    Forall (fun b => pb_context b <> 1) (path_proxy h' 0).
Proof.
  apply (off_without_name_ignores_handler busy_heap busy_para 0 1 (Some "") (Some 8));
    reflexivity.
Defined.

Lemma frame_update (h : Heap) (this this' : DocumentNode) (r : DocRef)
    (m : PathEventProxy -> PathEventProxy) :
  document this = Some r ->
  id this' = id this -> parent this' = parent this ->
  document this' = document this ->
  frame h (heap_update r (update_proxy "path" m) h) this this'.
Proof.
  intros Hdoc Hid Hpar Hdoc'. split; [intros r'; apply nodes_updated|].
  split; [done|]. split; [done|]. split; [done|].
  intros r' name Hother. apply other_proxy_updated.
  destruct Hother as [Hr|Hname]; [left|by right]. congruence.
Qed.



Lemma frame_trans (h0 h1 h2 : Heap) (n0 n1 n2 : DocumentNode) :
  frame h0 h1 n0 n1 -> frame h1 h2 n1 n2 -> frame h0 h2 n0 n2.
Proof.
  intros (Hn & Hi & Hp & Hd & Hx) (Hn' & Hi' & Hp' & Hd' & Hx').
  split; [intros r; by rewrite Hn', Hn|].
  split; [congruence|]. split; [congruence|]. split; [congruence|].
  intros r name Hother. rewrite Hx', Hx; [done..|]. by rewrite Hd.
Qed.




(** X13: on a detached node, a subscription under an event name in which the
    expression finds a property name that is neither declared nor inherited
    from [Object.prototype] is made, since [on] reads the schema; it cannot
    be taken back, since [off] does not: with that event name, and without
    one, [off] throws a [TypeError]. *)
Theorem detached_off_throws_where_on_returns (h : Heap) (this : DocumentNode)
    (eventName p : string) (handler : Handler) (ctx : Context) :
  document this = None ->
  _matchPropertyEvent eventName = Some p ->
  declares (constructor this) p = false ->
  inherited p = false ->
  on eventName handler ctx h this
    = Normal (h, subscribed this eventName handler ctx) /\
  (forall ctx' handler',
     off ctx' (Some eventName) handler' h (subscribed this eventName handler ctx)
       = Throw TypeError /\
     off ctx' None handler' h (subscribed this eventName handler ctx)
       = Throw TypeError).
Proof.
  intros Hdoc Hmatch Hdecl Hinh. split.
  - rewrite on_cases, Hmatch. unfold schema_truthy. by rewrite Hdecl, Hinh.
  - intros ctx' handler'. rewrite !off_cases.
    rewrite (match_nonempty _ _ Hmatch). simpl. by rewrite Hmatch, Hdoc.
Qed.

Lemma detached_off_throws_where_on_returns_witness :
  on "title:changed" 7 1 para_heap detached
    = Normal (para_heap, subscribed detached "title:changed" 7 1) /\
  (forall ctx' handler',
     off ctx' (Some "title:changed") handler' para_heap
         (subscribed detached "title:changed" 7 1)
       = Throw TypeError /\
     off ctx' None handler' para_heap (subscribed detached "title:changed" 7 1)
       = Throw TypeError).
Proof.
  apply (detached_off_throws_where_on_returns para_heap detached
           "title:changed" "title" 7 1); reflexivity.
Defined.

(** ** Subscribing and taking back *)

Lemma filter_same {A} (f : A -> bool) (l : list A) :
  Forall (fun x => f x = true) l -> List.filter f l = l.
Proof.
  induction 1 as [|x l Hx _ IH]; [done|]. simpl. by rewrite Hx, IH.
Qed.

Lemma filter_none {A} (f : A -> bool) (l : list A) :
  Forall (fun x => f x = false) l -> List.filter f l = [].
Proof.
  induction 1 as [|x l Hx _ IH]; [done|]. simpl. by rewrite Hx, IH.
Qed.

Lemma set_listeners_twice (bs bs' : list Binding) (n : DocumentNode) :
  set_listeners bs (set_listeners bs' n) = set_listeners bs n.
Proof. done. Qed.

Lemma set_listeners_same (n : DocumentNode) : set_listeners (listeners n) n = n.
Proof. by destruct n. Qed.

(** A binding that is not the one asked for stays. *)
Lemma path_kept (ctx : Context) (path : list string) (handler : Handler)
    (b : PathBinding) :
  ~ (pb_context b = ctx /\ pb_path b = path /\ pb_method b = handler) ->
  negb (path_binding_selected ctx (Some path) (Some handler) b) = true.
Proof.
  intros Hnot. unfold path_binding_selected. simpl.
  apply negb_true_iff, not_true_is_false. intros Hsel.
  apply andb_prop in Hsel as [Hsel Hm]. apply andb_prop in Hsel as [Hc Hp].
  apply Hnot. by rewrite !bool_decide_eq_true in *.
Qed.

Lemma local_kept (ctx : Context) (event : string) (handler : Handler) (b : Binding) :
  ~ (b_context b = ctx /\ b_event b = event /\ b_method b = handler) ->
  negb (binding_selected ctx (Some event) (Some handler) b) = true.
Proof.
  intros Hnot. unfold binding_selected. simpl.
  apply negb_true_iff, not_true_is_false. intros Hsel.
  apply andb_prop in Hsel as [Hsel Hm]. apply andb_prop in Hsel as [Hc He].
  apply Hnot. by rewrite !bool_decide_eq_true in *.
Qed.

(** X14: on a node of a Document, [on(eventName, handler, ctx)] followed by
    [off(ctx, eventName, handler)] gives back the node and the path proxy as
    they were, whatever the expression finds in the event name, provided the
    name is not empty and the same subscription was not there before: [on]
    and [off] address the same path. *)
Theorem on_then_off_restores (h : Heap) (this : DocumentNode) (r : DocRef)
    (eventName : string) (handler : Handler) (ctx : Context) :
  document this = Some r ->
  eventName <> "" ->
  Forall (fun b => ~ (b_context b = ctx /\ b_event b = eventName /\
                      b_method b = handler)) (listeners this) ->
  (forall p, _matchPropertyEvent eventName = Some p ->
     Forall (fun b => ~ (pb_context b = ctx /\ pb_path b = [id this; p] /\
                         pb_method b = handler)) (path_proxy h r)) ->
  exists h1 h2,
    on eventName handler ctx h this
      = Normal (h1, subscribed this eventName handler ctx) /\
    off ctx (Some eventName) (Some handler) h1 (subscribed this eventName handler ctx)
      = Normal (h2, this) /\
    path_proxy h2 r = path_proxy h r /\
    frame h h2 this this.
Proof.
  intros Hdoc Hne Hlocal Hpath.
  assert (unsubscribed (subscribed this eventName handler ctx) ctx
            (Some eventName) (Some handler) = this) as Hback.
  { unfold unsubscribed, subscribed. rewrite set_listeners_twice.
    unfold EventEmitter_off, EventEmitter_on. simpl.
    rewrite List.filter_app. simpl.
    unfold binding_selected at 2. simpl. rewrite !bool_decide_eq_true_2 by done.
    simpl. rewrite app_nil_r, filter_same; [apply set_listeners_same|].
    eapply Forall_impl; [exact Hlocal|]. intros b. apply local_kept. }
  assert (Boolean (Some eventName) = true) as Htruthy by by destruct eventName.
  destruct (_matchPropertyEvent eventName) as [p|] eqn:Hmatch.
  - assert (List.filter
              (fun b => negb (path_binding_selected ctx (Some [id this; p])
                                (Some handler) b)) (path_proxy h r)
            = path_proxy h r) as Hkeep.
    { apply filter_same. eapply Forall_impl; [exact (Hpath p eq_refl)|].
      intros b. apply path_kept. }
    destruct (schema_truthy (constructor this) p) eqn:Hdecl.
    + do 2 eexists. rewrite on_cases, Hmatch, Hdecl, Hdoc. split; [done|].
      rewrite off_cases, Htruthy. simpl. rewrite Hmatch, Hdoc, Hback.
      split; [done|]. split.
      * rewrite !path_proxy_updated. unfold PathEventProxy_off, PathEventProxy_on.
        rewrite List.filter_app. simpl.
        unfold path_binding_selected at 2. simpl.
        rewrite !bool_decide_eq_true_2 by done. simpl.
        by rewrite app_nil_r, Hkeep.
      * eapply frame_trans with (n1 := this); by apply frame_update.
    + do 2 eexists. rewrite on_cases, Hmatch, Hdecl. split; [done|].
      rewrite off_cases, Htruthy. simpl. rewrite Hmatch, Hdoc, Hback.
      split; [done|]. split.
      * rewrite path_proxy_updated. exact Hkeep.
      * by apply frame_update.
  - do 2 eexists. rewrite on_cases, Hmatch. split; [done|].
    rewrite off_cases, Htruthy. simpl. rewrite Hmatch, Hback.
    split; [done|]. split; [done|]. by repeat split.
Qed.

Lemma on_then_off_restores_witness :
  exists h1 h2,
    on "content:changed" 7 1 para_heap para
      = Normal (h1, subscribed para "content:changed" 7 1) /\
    off 1 (Some "content:changed") (Some 7) h1 (subscribed para "content:changed" 7 1)
      = Normal (h2, para) /\
    path_proxy h2 0 = path_proxy para_heap 0 /\
    frame para_heap h2 para para.
Proof.
  apply (on_then_off_restores para_heap para 0 "content:changed" 7 1);
    [reflexivity|discriminate|constructor|intros p _; constructor].
Defined.

(** ** [connect] and [disconnect] *)

Lemma on_unrouted (h : Heap) (this : DocumentNode)
    (eventName : string) (handler : Handler) (ctx : Context) :
  routed (constructor this) eventName = false ->
  on eventName handler ctx h this
  = Normal (h, subscribed this eventName handler ctx).
Proof.
  unfold routed. rewrite on_cases. intros Hr.
  destruct (_matchPropertyEvent eventName) as [p|]; [|done]. by rewrite Hr.
Qed.

Lemma on_routed_detached (h : Heap) (this : DocumentNode)
    (eventName : string) (handler : Handler) (ctx : Context) :
  document this = None ->
  routed (constructor this) eventName = true ->
  on eventName handler ctx h this = Throw TypeError.
Proof.
  unfold routed. rewrite on_cases. intros Hdoc Hr.
  destruct (_matchPropertyEvent eventName) as [p|]; [|done]. by rewrite Hr, Hdoc.
Qed.

(** When an event name leads to the path proxy. *)
Lemma routed_true (cls : NodeClass) (eventName : string) :
  routed cls eventName = true <->
  exists p, _matchPropertyEvent eventName = Some p /\
            (declares cls p = true \/ In p Object_prototype).
Proof.
  unfold routed. destruct (_matchPropertyEvent eventName) as [p|].
  - rewrite schema_truthy_true. split; [by exists p|].
    by intros (q & [= <-] & Hq).
  - split; [done|]. by intros (q & [=] & _).
Qed.

Lemma routed_false (cls : NodeClass) (eventName : string) :
  routed cls eventName = false <->
  forall p, _matchPropertyEvent eventName = Some p ->
            declares cls p = false /\ ~ In p Object_prototype.
Proof.
  unfold routed. destruct (_matchPropertyEvent eventName) as [p|].
  - rewrite schema_truthy_false. split; [by intros Hp q [= <-]|].
    intros Hno. by apply Hno.
  - split; [by intros _ q [=]|done].
Qed.

Lemma connect_unrouted (ctx : Context)
    (handlers : list (string * Handler)) (h : Heap) (this : DocumentNode) :
  Forall (fun entry => routed (constructor this) (fst entry) = false) handlers ->
  connect ctx handlers h this
  = Normal (h, set_listeners (listeners this ++ bindings_of ctx handlers)%list this).
Proof.
  revert this. induction handlers as [|[name func] more IH]; intros this Hall.
  - simpl. by rewrite app_nil_r, set_listeners_same.
  - apply Forall_cons in Hall as [Hname Hmore]. simpl in Hname.
    cbn [connect]. rewrite (on_unrouted _ _ _ _ _ Hname). simpl.
    rewrite (IH (subscribed this name func ctx) Hmore).
    unfold subscribed, EventEmitter_on. rewrite set_listeners_twice. simpl.
    by rewrite <- app_assoc.
Qed.

Lemma connect_detached_throws (ctx : Context)
    (handlers : list (string * Handler)) (h : Heap) (this : DocumentNode) :
  document this = None ->
  (connect ctx handlers h this = Throw TypeError <->
   Exists (fun entry => routed (constructor this) (fst entry) = true) handlers)
  /\
  (forall e, connect ctx handlers h this = Throw e -> e = TypeError).
Proof.
  revert this h. induction handlers as [|[name func] more IH]; intros this h Hdoc.
  - split; [split|]; [done|by intros ?%Exists_nil|done].
  - cbn [connect]. destruct (routed (constructor this) name) eqn:Hname.
    + rewrite (on_routed_detached _ _ _ _ _ Hdoc Hname). simpl.
      split; [split; [|done]|by intros e [= <-]].
      intros _. by apply Exists_cons_hd.
    + rewrite (on_unrouted _ _ _ _ _ Hname). simpl.
      destruct (IH (subscribed this name func ctx) h Hdoc) as [Hiff Honly].
      split; [|done]. rewrite Hiff. simpl. rewrite Exists_cons. simpl.
      rewrite Hname. split; [by right|by intros [?|?]].
Qed.

(** X15: [connect] with handlers in none of whose names the expression finds
    a property name that is declared or inherited from [Object.prototype]
    subscribes all of them locally, in the order given, under the one
    context; it leaves the heap as it is and does not throw, on a detached
    node too. *)
Theorem connect_unrouted_is_local (ctx : Context)
    (handlers : list (string * Handler)) (h : Heap) (this : DocumentNode) :
  Forall (fun entry =>
            forall p, _matchPropertyEvent (fst entry) = Some p ->
                      declares (constructor this) p = false /\
                      ~ In p Object_prototype) handlers ->
  connect ctx handlers h this
  = Normal (h, set_listeners (listeners this ++ bindings_of ctx handlers)%list this).
Proof.
  intros Hall. apply connect_unrouted.
  eapply Forall_impl; [exact Hall|]. intros entry. apply routed_false.
Qed.

Lemma connect_unrouted_is_local_witness :
  connect 1 [("highlighted", 7); ("title:changed", 8)] para_heap detached
  = Normal (para_heap,
            set_listeners
              (listeners detached
               ++ bindings_of 1 [("highlighted", 7); ("title:changed", 8)])%list
              detached).
Proof.
  apply (connect_unrouted_is_local 1 [("highlighted", 7); ("title:changed", 8)]
           para_heap detached).
  constructor; [intros p Hp; discriminate Hp|].
  constructor; [|constructor].
  intros p Hp. injection Hp as <-. split; [reflexivity|].
  intros Hin. by apply inherited_In in Hin.
Defined.

(** X16: on a detached node [connect] throws exactly when there is a handler
    in whose name the expression finds a property name that is declared or
    inherited from [Object.prototype], and what it throws is a [TypeError]. *)
Theorem connect_detached_throws_iff (ctx : Context)
    (handlers : list (string * Handler)) (h : Heap) (this : DocumentNode) :
  document this = None ->
  (connect ctx handlers h this = Throw TypeError <->
   Exists (fun entry =>
             exists p, _matchPropertyEvent (fst entry) = Some p /\
                       (declares (constructor this) p = true \/
                        In p Object_prototype)) handlers)
  /\
  (forall e, connect ctx handlers h this = Throw e -> e = TypeError).
Proof.
  intros Hdoc.
  destruct (connect_detached_throws ctx handlers h this Hdoc) as [Hiff Honly].
  split; [|done]. rewrite Hiff.
  split; intros Hex; (eapply List.Exists_impl; [|exact Hex]);
    intros entry; apply routed_true.
Qed.

Lemma connect_detached_throws_iff_witness :
  connect 1 [("highlighted", 7); ("content:changed", 8)] para_heap detached
  = Throw TypeError.
Proof.
  apply (connect_detached_throws_iff 1 [("highlighted", 7); ("content:changed", 8)]
           para_heap detached eq_refl).
  apply Exists_cons_tl, Exists_cons_hd. exists "content".
  split; [reflexivity|left; reflexivity].
Defined.

(** On a node of a Document [connect] returns; what it adds to the path
    proxy and to the local subscriptions belongs to the context. *)
Lemma connect_attached (ctx : Context) (handlers : list (string * Handler))
    (h : Heap) (this : DocumentNode) (r : DocRef) :
  document this = Some r ->
  exists h1 added,
    connect ctx handlers h this
      = Normal (h1, set_listeners (listeners this ++ bindings_of ctx handlers)%list this) /\
    path_proxy h1 r = (path_proxy h r ++ added)%list /\
    Forall (fun b => pb_context b = ctx) added.
Proof.
  revert this h. induction handlers as [|[name func] more IH]; intros this h Hdoc.
  - exists h, []. simpl. by rewrite !app_nil_r, set_listeners_same.
  - cbn [connect].
    assert (exists h0 added0,
      on name func ctx h this = Normal (h0, subscribed this name func ctx) /\
      path_proxy h0 r = (path_proxy h r ++ added0)%list /\
      Forall (fun b => pb_context b = ctx) added0) as (h0 & added0 & Hon & Hp0 & Hc0).
    { rewrite on_cases.
      destruct (_matchPropertyEvent name) as [p|];
        [destruct (schema_truthy (constructor this) p)|].
      - rewrite Hdoc. do 2 eexists. split; [done|].
        rewrite path_proxy_updated. split; [done|]. by repeat constructor.
      - exists h, []. by rewrite app_nil_r.
      - exists h, []. by rewrite app_nil_r. }
    rewrite Hon. simpl.
    destruct (IH (subscribed this name func ctx) h0 Hdoc)
      as (h1 & added & Hcon & Hp1 & Hc1).
    exists h1, (added0 ++ added)%list. rewrite Hcon. split.
    + unfold subscribed, EventEmitter_on. rewrite set_listeners_twice. simpl.
      by rewrite <- app_assoc.
    + split; [by rewrite Hp1, Hp0, app_assoc|by apply Forall_app].
Qed.

(** X17: on a node of a Document, [connect(ctx, handlers)] followed by
    [disconnect(ctx)] has the effect of [disconnect(ctx)] alone, on the path
    proxy and on the node: everything [connect] subscribed is taken back. *)
Theorem connect_then_disconnect (ctx : Context)
    (handlers : list (string * Handler)) (h : Heap) (this : DocumentNode)
    (r : DocRef) :
  document this = Some r ->
  exists h1 n1 h2 h3,
    connect ctx handlers h this = Normal (h1, n1) /\
    disconnect ctx h1 n1 = Normal (h2, unsubscribed this ctx None None) /\
    disconnect ctx h this = Normal (h3, unsubscribed this ctx None None) /\
    path_proxy h2 r = path_proxy h3 r /\
    Forall (fun b => pb_context b <> ctx) (path_proxy h2 r) /\
    Forall (fun b => b_context b <> ctx) (listeners (unsubscribed this ctx None None)).
Proof.
  intros Hdoc.
  destruct (connect_attached ctx handlers h this r Hdoc)
    as (h1 & added & Hcon & Hp1 & Hadded).
  do 4 eexists. split; [exact Hcon|]. unfold disconnect.
  rewrite !off_cases. simpl. rewrite Hdoc.
  assert (unsubscribed
            (set_listeners (listeners this ++ bindings_of ctx handlers)%list this)
            ctx None None = unsubscribed this ctx None None) as ->.
  { unfold unsubscribed. rewrite set_listeners_twice. f_equal. simpl.
    unfold EventEmitter_off. rewrite List.filter_app.
    rewrite (filter_none _ (bindings_of ctx handlers)); [by rewrite app_nil_r|].
    unfold bindings_of. apply Forall_forall. intros b Hb.
    apply list_elem_of_In, List.in_map_iff in Hb as ([name func] & <- & _).
    unfold binding_selected. simpl. by rewrite bool_decide_eq_true_2. }
  split; [done|]. split; [done|].
  rewrite !path_proxy_updated, Hp1. unfold PathEventProxy_off.
  rewrite List.filter_app, (filter_none _ added).
  - rewrite app_nil_r. split; [done|]. split.
    + eapply Forall_impl; [apply filter_all|]. intros b. apply not_owned_path.
    + eapply Forall_impl; [apply filter_all|]. intros b. apply not_owned.
  - eapply Forall_impl; [exact Hadded|]. intros b Hb.
    unfold path_binding_selected. simpl. by rewrite bool_decide_eq_true_2.
Qed.

Lemma connect_then_disconnect_witness :
  exists h1 n1 h2 h3,
    connect 1 [("content:changed", 7); ("highlighted", 8)] busy_heap busy_para
      = Normal (h1, n1) /\
    disconnect 1 h1 n1 = Normal (h2, unsubscribed busy_para 1 None None) /\
    disconnect 1 busy_heap busy_para
      = Normal (h3, unsubscribed busy_para 1 None None) /\
    path_proxy h2 0 = path_proxy h3 0 /\
    Forall (fun b => pb_context b <> 1) (path_proxy h2 0) /\
    Forall (fun b => b_context b <> 1) (listeners (unsubscribed busy_para 1 None None)).
Proof.
  apply (connect_then_disconnect 1 [("content:changed", 7); ("highlighted", 8)]
           busy_heap busy_para 0).
  reflexivity.
Defined.

(** ** Property changes *)

(** X18: for every node and every property name,
    [_onPropertyChange(propertyName, args...)] leaves the node as it is and
    emits exactly one event, named [propertyName + ":changed"] and carrying
    the arguments. For a declared property whose name is a word over
    [[a-zA-Z_0-9]], on a node of a Document, the expression finds the
    property name in that event name and [on] installs a handler subscribed
    under it on the path proxy, at the path (node id, property name). *)
Theorem property_change_event_is_routed (h : Heap) (this : DocumentNode)
    (propertyName : string) (args : list JsVal) :
  _onPropertyChange propertyName args this
    = (this, [{| em_event := propertyName ++ ":changed"; em_args := args |}])
  /\
  (forall r handler ctx,
     document this = Some r ->
     word propertyName ->
     declares (constructor this) propertyName = true ->
     _matchPropertyEvent (propertyName ++ ":changed") = Some propertyName /\
     exists h',
       on (propertyName ++ ":changed") handler ctx h this
         = Normal (h', subscribed this (propertyName ++ ":changed") handler ctx) /\
       path_proxy h' r
         = (path_proxy h r ++
            [{| pb_path := [id this; propertyName]; pb_method := handler;
                pb_context := ctx |}])%list).
Proof.
  split; [done|]. intros r handler ctx Hdoc Hword Hdecl.
  split; [by apply match_exact|]. eexists.
  rewrite on_cases, (match_exact _ Hword). unfold schema_truthy.
  rewrite Hdecl, Hdoc. simpl. split; [done|]. apply path_proxy_updated.
Qed.

Lemma property_change_event_is_routed_witness :
  _matchPropertyEvent ("content" ++ ":changed") = Some "content" /\
  exists h',
    on ("content" ++ ":changed") 7 1 para_heap para
      = Normal (h', subscribed para ("content" ++ ":changed") 7 1) /\
    path_proxy h' 0
      = (path_proxy para_heap 0 ++
         [{| pb_path := [id para; "content"]; pb_method := 7; pb_context := 1 |}])%list.
Proof.
  apply (proj2 (property_change_event_is_routed para_heap para "content"
                  [JsString "a"; JsString "ab"]) 0 7 1);
    [reflexivity|split; [discriminate|reflexivity]|reflexivity].
Defined.
